(** * Batter dashboard: filtering, batting metrics and chart series

    A shallow embedding of [batter_dashboard.py].  The script is a single
    top-to-bottom pass: it loads the ball-by-ball table, derives the
    "Bowling Type" column, applies the sidebar filters, computes the KPI
    row and builds the wagon wheel, the dismissal pie, the catch map and
    the beehive.

    Conventions of the embedding:
    - a pandas cell that may be NaN is an [option]; [None] is NaN;
    - the integer column "Runs" holds [Z] values; its sums are taken in
      [Z] where a score sheet cannot reach the 64-bit range, and with
      their 64-bit wrap-around ([sum_int64]) where a bound depends on it;
    - float columns and float results are rationals [Q]: the additions,
      subtractions and divisions of the script are taken exactly, and
      [round(_, 2)] is written out as rounding half to even; where a
      bound depends on the rounding, the float operations are parameters
      ([FloatOps]) held to what binary floating point guarantees;
    - text cells are [string]s of 8-bit characters (ASCII data);
    - a Python dict is a [gmap];
    - a statement that may raise returns a [result]. *)

From Stdlib Require Import ZArith QArith Qround Lqa Lia Bool Ascii.
From stdpp Require Import base option list strings pretty gmap sorting.

Local Open Scope string_scope.
Local Open Scope Z_scope.

(** ** Data model *)

(** The two values of the derived "Bowling Type" column. *)
Inductive BowlingType := Spin | Pace.

#[global] Instance BowlingType_eq_dec : EqDecision BowlingType.
Proof. solve_decision. Defined.

(** One line of [MB50_25.csv], restricted to the columns the script reads. *)
Record CsvRow := {
  Batting_Team : option string;
  Batter : option string;
  Bowler_Type : option string;
  Runs : option Z;
  Extra : option string;
  Wicket : option string;
  FieldX : option Q;
  FieldY : option Q;
  Analyst_Arrival_Line : option Q;
  Analyst_Arrival_Height : option Q }.

(** A row of the data frame returned by [load_data]: the CSV columns plus
    the derived ["Bowling Type"]. *)
Record Row := {
  cells :> CsvRow;
  Bowling_Type : option BowlingType }.

(** The state of the four sidebar multiselects. *)
Record Selection := {
  selected_teams : list string;
  selected_batters : list string;
  selected_bowling : list BowlingType;
  selected_runs : list Z }.

(** ** pandas primitives *)

(** [Series.notna()], cell by cell. *)
Definition notna {A} (v : option A) : bool :=
  match v with Some _ => true | None => false end.

(** [Series.isin(values)], cell by cell: NaN is a member of no list of
    proper values. *)
Definition isin {A} `{EqDecision A} (v : option A) (values : list A) : bool :=
  match v with
  | Some a => bool_decide (a ∈ values)
  | None => false
  end.

(** [series == value], cell by cell. *)
Definition eq_cell {A} `{EqDecision A} (v : option A) (value : A) : bool :=
  match v with
  | Some a => bool_decide (a = value)
  | None => false
  end.

(** Truth value of a Python list in [if selection:]. *)
Definition truthy {A} (l : list A) : bool :=
  match l with [] => false | _ :: _ => true end.

(** [Series.map(dict)]: keys missing from the dict, and NaN, map to NaN. *)
Definition map_dict {V} (d : gmap string V) (v : option string) : option V :=
  match v with
  | Some k => d !! k
  | None => None
  end.

(** ** LOAD DATA *)

Definition bowling_type_mapping : gmap string BowlingType :=
  list_to_map
    [ ("LLB", Spin); ("LOB", Spin); ("RLB", Spin); ("ROB", Spin);
      ("LF", Pace); ("LFM", Pace); ("LM", Pace);
      ("RF", Pace); ("RFM", Pace); ("RM", Pace) ].

Definition add_bowling_type (c : CsvRow) : Row :=
  {| cells := c;
     Bowling_Type := map_dict bowling_type_mapping (Bowler_Type c) |}.

Definition load_data (csv : list CsvRow) : list Row :=
  add_bowling_type <$> csv.

(** ** APPLY FILTERS *)

Definition filter_teams (sel : Selection) (rows : list Row) : list Row :=
  if truthy (selected_teams sel)
  then List.filter (fun r : Row => isin (Batting_Team r) (selected_teams sel)) rows
  else rows.

Definition filter_batters (sel : Selection) (rows : list Row) : list Row :=
  if truthy (selected_batters sel)
  then List.filter (fun r : Row => isin (Batter r) (selected_batters sel)) rows
  else rows.

Definition filter_bowling (sel : Selection) (rows : list Row) : list Row :=
  if truthy (selected_bowling sel)
  then List.filter (fun r : Row => isin (Bowling_Type r) (selected_bowling sel)) rows
  else rows.

Definition filtered (data : list Row) (sel : Selection) : list Row :=
  let filtered := data in
  let filtered := filter_teams sel filtered in
  let filtered := filter_batters sel filtered in
  let filtered := filter_bowling sel filtered in
  filtered.

(** ** Exceptions *)

Inductive Exception :=
| ZeroDivisionError
| FileNotFoundError
| OtherError (name : string).

(** Outcome of a statement that may raise. *)
Inductive result (A : Type) : Type :=
| Ok (a : A)
| Raise (e : Exception).
Arguments Ok {A} a.
Arguments Raise {A} e.

Definition bind {A B} (m : result A) (k : A -> result B) : result B :=
  match m with
  | Ok a => k a
  | Raise e => Raise e
  end.

Notation "'do' x <- m ; k" := (bind m (fun x => k))
  (at level 10, x name, m at level 100, k at level 200).

(** ** Numbers *)

(** Nearest integer, ties to the even one (the rounding of [round]). *)
Definition round_half_even (q : Q) : Z :=
  let f := Qfloor q in
  match (q - inject_Z f ?= 1 # 2)%Q with
  | Lt => f
  | Gt => f + 1
  | Eq => if Z.even f then f else f + 1
  end.

(** [round(x, ndigits)]. *)
Definition round (x : Q) (ndigits : nat) : Q :=
  let p := inject_Z (10 ^ Z.of_nat ndigits) in
  (inject_Z (round_half_even (x * p)) / p)%Q.

(** [a / b].  A zero divisor raises, as Python's own division does; numpy
    scalars would give [inf] with a warning instead, so the model is the
    stricter of the two. *)
Definition truediv (a b : Q) : result Q :=
  if Qeq_bool b 0 then Raise ZeroDivisionError else Ok (a / b)%Q.

(** [Series.sum()]: NaN cells are skipped, the empty sum is 0. *)
Definition sum (s : list (option Z)) : Z :=
  foldr (fun v acc => default 0 v + acc) 0 s.

(** ** Text *)

Definition lower (c : ascii) : ascii :=
  let n := nat_of_ascii c in
  if (65 <=? n)%nat && (n <=? 90)%nat then ascii_of_nat (n + 32) else c.

Fixpoint lowercase (s : string) : string :=
  match s with
  | EmptyString => EmptyString
  | String c s' => String (lower c) (lowercase s')
  end.

(** Character comparison of the regex engine: exact when [case] is set,
    up to letter case otherwise ([re.IGNORECASE]). *)
Definition same_char (case : bool) (p c : ascii) : bool :=
  if case then bool_decide (p = c) else bool_decide (lower p = lower c).

(** A literal pattern matched at the start of the subject. *)
Fixpoint match_here (case : bool) (pat s : string) : bool :=
  match pat, s with
  | EmptyString, _ => true
  | String _ _, EmptyString => false
  | String p pat', String c s' => same_char case p c && match_here case pat' s'
  end.

(** [re.search] of a literal pattern: a match at some position. *)
Fixpoint search (case : bool) (pat s : string) : bool :=
  match_here case pat s ||
  match s with
  | EmptyString => false
  | String _ s' => search case pat s'
  end.

(** [Series.astype(str)], cell by cell: NaN becomes the text ["nan"]. *)
Definition astype_str (v : option string) : option string :=
  Some (default "nan" v).

(** [Series.str.contains(pat, case=.., na=..)], cell by cell. *)
Definition str_contains (pat : string) (case na : bool) (v : option string) : bool :=
  match v with
  | Some s => search case pat s
  | None => na
  end.

(** ** KPI SECTION *)

(** A metric shown in a KPI tile: a number or a piece of text. *)
Inductive Scalar :=
| Number (q : Q)
| Text (s : string).

Definition total_runs (filtered : list Row) : Z :=
  sum ((fun r : Row => Runs r) <$> filtered).

(** Mask of the balls that count as faced: everything but wides. *)
Definition not_wide (r : Row) : bool :=
  negb (str_contains "Wide" false false (astype_str (Extra r))).

Definition balls_faced (filtered : list Row) : nat :=
  length (List.filter not_wide filtered).

(** Mask of the dismissals. *)
Definition is_dismissal (r : Row) : bool :=
  notna (Wicket r) &&
  negb (isin (Wicket r) ["Retired Hurt"; "Retired - Not Out"; "Absent"]).

Definition dismissals_count (filtered : list Row) : nat :=
  length (List.filter is_dismissal filtered).

(** The text shown for an average without dismissals, as the source file
    stores it. *)
Definition no_average : string := "‚àû".

Definition batting_average (filtered : list Row) : result Scalar :=
  if (0 <? dismissals_count filtered)%nat then
    do q <- truediv (inject_Z (total_runs filtered))
                    (inject_Z (Z.of_nat (dismissals_count filtered)));
    Ok (Number (round q 2))
  else Ok (Text no_average).

Definition strike_rate (filtered : list Row) : result Q :=
  if (0 <? balls_faced filtered)%nat then
    do q <- truediv (inject_Z (total_runs filtered))
                    (inject_Z (Z.of_nat (balls_faced filtered)));
    Ok (round (q * 100) 2)
  else Ok 0%Q.

Definition boundary_runs (filtered : list Row) : Z :=
  sum ((fun r : Row => Runs r) <$>
       List.filter (fun r : Row => isin (Runs r) [4; 6]) filtered).

Definition boundary_percentage (filtered : list Row) : result Q :=
  if 0 <? total_runs filtered then
    do q <- truediv (inject_Z (boundary_runs filtered))
                    (inject_Z (total_runs filtered));
    Ok (round (q * 100) 2)
  else Ok 0%Q.

(** The six values handed to the KPI tiles. *)
Record Metrics := {
  m_total_runs : Z;
  m_balls_faced : nat;
  m_dismissals_count : nat;
  m_batting_average : Scalar;
  m_strike_rate : Q;
  m_boundary_percentage : Q }.

Definition kpi_section (filtered : list Row) : result Metrics :=
  do avg <- batting_average filtered;
  do sr <- strike_rate filtered;
  do bp <- boundary_percentage filtered;
  Ok {| m_total_runs := total_runs filtered;
        m_balls_faced := balls_faced filtered;
        m_dismissals_count := dismissals_count filtered;
        m_batting_average := avg;
        m_strike_rate := sr;
        m_boundary_percentage := bp |}.

(** ** Charts *)

(** A decoded picture; only its size is ever read. *)
Record Image := { img_width : Z; img_height : Z }.

(** [Image.open(path)], against the picture files that open; a path
    outside them stands for a missing file. *)
Definition Image_open (files : gmap string Image) (path : string) : result Image :=
  match files !! path with
  | Some img => Ok img
  | None => Raise FileNotFoundError
  end.

(** A [go.Scatter] trace: coordinates (NaN or [None] is a gap), drawing
    mode, colour and legend name. *)
Record Scatter := {
  trace_x : list (option Q);
  trace_y : list (option Q);
  trace_mode : string;
  trace_color : string;
  trace_name : option string }.

Record Figure := {
  layout_image : option Image;
  data : list Scatter }.

(** What a section of the page shows: a chart or a line of text. *)
Inductive Output :=
| plotly_chart (fig : Figure)
| write (msg : string).

(** Subtraction of float cells: NaN propagates. *)
Definition sub (a b : option Q) : option Q :=
  match a, b with
  | Some a, Some b => Some (a - b)%Q
  | _, _ => None
  end.

(** [series > k], cell by cell: false on NaN. *)
Definition gt_cell (v : option Z) (k : Z) : bool :=
  match v with
  | Some a => k <? a
  | None => false
  end.

(** [dict.get(key, fallback)] on a dict kept in insertion order. *)
Fixpoint get {V} (d : list (Z * V)) (key : option Z) (fallback : V) : V :=
  match d with
  | [] => fallback
  | (k, v) :: d' => if eq_cell key k then v else get d' key fallback
  end.

(** The background picture of the two field charts: a file that cannot be
    opened is skipped ([try: ... except: pass]). *)
Definition optional_background (files : gmap string Image) (path : string) : option Image :=
  match Image_open files path with
  | Ok img => Some img
  | Raise _ => None
  end.

(** *** WAGON WHEEL *)

Definition wagon (filtered : list Row) (sel : Selection) : list Row :=
  List.filter
    (fun r : Row =>
       isin (Runs r) (selected_runs sel) &&
       gt_cell (Runs r) 0 &&
       notna (FieldX r) &&
       notna (FieldY r))
    filtered.

Definition center_x : Q := 175.
Definition center_y : Q := 175.

Definition run_colors : list (Z * string) :=
  [ (1, "#00FFFF"); (2, "#0057FF"); (3, "#FF00FF");
    (4, "#00C800"); (5, "#FFA500"); (6, "#FF0000") ].

(** Body of the loop over the shots: one line from the origin per row. *)
Definition wagon_line (row : Row) : Scatter :=
  let x := sub (FieldX row) (Some center_x) in
  let y := sub (Some center_y) (FieldY row) in
  let run_val := Runs row in
  let color := get run_colors run_val "grey" in
  {| trace_x := [Some 0%Q; x];
     trace_y := [Some 0%Q; y];
     trace_mode := "lines";
     trace_color := color;
     trace_name := None |}.

Definition wagon_lines (wagon : list Row) : list Scatter :=
  wagon_line <$> wagon.

(** Body of the loop over [run_colors]: one empty trace per legend entry. *)
Definition legend_entry (rc : Z * string) : Scatter :=
  let '(r, c) := rc in
  {| trace_x := [None];
     trace_y := [None];
     trace_mode := "lines";
     trace_color := c;
     trace_name := Some (pretty r +:+ " Run") |}.

Definition wagon_section (files : gmap string Image)
    (filtered : list Row) (sel : Selection) : Output :=
  let wagon := wagon filtered sel in
  if (0 <? length wagon)%nat then
    plotly_chart
      {| layout_image := optional_background files "wagon_background.png";
         data := wagon_lines wagon ++ (legend_entry <$> run_colors) |}
  else write "No scoring shots available.".

(** *** CATCH MAP *)

Definition caught (filtered : list Row) : list Row :=
  List.filter
    (fun r : Row =>
       eq_cell (Wicket r) "Caught" &&
       notna (FieldX r) &&
       notna (FieldY r))
    filtered.

Definition x_vals (caught : list Row) : list (option Q) :=
  (fun r : Row => sub (FieldX r) (Some 175%Q)) <$> caught.

Definition y_vals (caught : list Row) : list (option Q) :=
  (fun r : Row => sub (Some 175%Q) (FieldY r)) <$> caught.

Definition catch_trace (caught : list Row) : Scatter :=
  {| trace_x := x_vals caught;
     trace_y := y_vals caught;
     trace_mode := "markers";
     trace_color := "black";
     trace_name := None |}.

Definition catch_section (files : gmap string Image) (filtered : list Row) : Output :=
  let caught := caught filtered in
  if (0 <? length caught)%nat then
    plotly_chart
      {| layout_image := optional_background files "wagon_background.png";
         data := [ catch_trace caught ] |}
  else write "No caught dismissals.".

(** *** BEEHIVE *)

Definition beehive_data (filtered : list Row) : list Row :=
  List.filter
    (fun r : Row =>
       notna (Analyst_Arrival_Line r) &&
       notna (Analyst_Arrival_Height r))
    filtered.

(** One marker series: the rows of [beehive_data] under a mask. *)
Definition beehive_trace (beehive_data : list Row) (mask : Row -> bool)
    (color name : string) : Scatter :=
  {| trace_x := (fun r : Row => Analyst_Arrival_Line r) <$> List.filter mask beehive_data;
     trace_y := (fun r : Row => Analyst_Arrival_Height r) <$> List.filter mask beehive_data;
     trace_mode := "markers";
     trace_color := color;
     trace_name := Some name |}.

Definition fours (beehive_data : list Row) : Scatter :=
  beehive_trace beehive_data (fun r : Row => eq_cell (Runs r) 4) "green" "4 Runs".

Definition sixes (beehive_data : list Row) : Scatter :=
  beehive_trace beehive_data (fun r : Row => eq_cell (Runs r) 6) "red" "6 Runs".

Definition wickets (beehive_data : list Row) : Scatter :=
  beehive_trace beehive_data (fun r : Row => notna (Wicket r)) "black" "Dismissal".

(** The picture is opened outside any [try] here: a missing file raises. *)
Definition beehive_section (files : gmap string Image)
    (filtered : list Row) : result Output :=
  let beehive_data := beehive_data filtered in
  if (0 <? length beehive_data)%nat then
    do img <- Image_open files "beehive_background.jpg";
    Ok (plotly_chart
          {| layout_image := Some img;
             data := [ fours beehive_data; sixes beehive_data; wickets beehive_data ] |})
  else Ok (write "No delivery data available.").


(** ** SIDEBAR FILTERS *)

(** [Series.dropna()]. *)
Definition dropna {A} (s : list (option A)) : list A :=
  omap id s.

(** [Series.unique()]: the distinct values, in order of first appearance. *)
Fixpoint unique {A} `{EqDecision A} (s : list A) : list A :=
  match s with
  | [] => []
  | x :: s' => x :: List.filter (fun y => negb (bool_decide (y = x))) (unique s')
  end.

(** The order of [str]: character by character, a proper prefix first. *)
Definition str_le (a b : string) : Prop := String.leb a b = true.

#[global] Instance str_le_dec (a b : string) : Decision (str_le a b).
Proof. unfold str_le. apply _. Defined.

(** [sorted(values)] on strings. *)
Definition sorted (values : list string) : list string :=
  merge_sort str_le values.

Definition teams (data : list Row) : list string :=
  sorted (unique (dropna ((fun r : Row => Batting_Team r) <$> data))).

Definition batters (data : list Row) : list string :=
  sorted (unique (dropna ((fun r : Row => Batter r) <$> data))).

(** The selection the four multiselects start with. *)
Definition default_selection (data : list Row) : Selection :=
  {| selected_teams := teams data;
     selected_batters := take 1 (batters data);
     selected_bowling := [Spin; Pace];
     selected_runs := [1; 2; 3; 4; 5; 6] |}.

(** ** DISMISSAL PIE *)

Definition dismissals (filtered : list Row) : list Row :=
  List.filter (fun r : Row => notna (Wicket r)) filtered.

(** How often a value occurs in a column. *)
Definition occurrences (v : string) (s : list string) : nat :=
  length (List.filter (fun x => bool_decide (x = v)) s).

(** The order of the slices: by falling count. *)
Definition at_least_as_frequent (a b : string * nat) : Prop :=
  (b.2 <= a.2)%nat.

(** One step of the sort by falling count: the new entry goes before the
    first one that is not more frequent, so entries of equal count keep
    their order. *)
Fixpoint insert_by_count (x : string * nat) (l : list (string * nat))
    : list (string * nat) :=
  match l with
  | [] => [x]
  | y :: l' =>
    if decide (x.2 < y.2)%nat then y :: insert_by_count x l' else x :: y :: l'
  end.

(** [Series.sort_values(ascending=False)] on the counts: a stable sort. *)
Definition sort_by_count (l : list (string * nat)) : list (string * nat) :=
  foldr insert_by_count [] l.

(** [Series.value_counts()]: the distinct non-null values with the number
    of their occurrences, the most frequent first, values of equal count
    in the order of their first appearance. *)
Definition value_counts (s : list (option string)) : list (string * nat) :=
  let values := dropna s in
  sort_by_count ((fun v => (v, occurrences v values)) <$> unique values).

(** A [go.Pie] trace. *)
Record Pie := {
  pie_labels : list string;
  pie_values : list nat }.

Inductive PieOutput :=
| pie_chart (fig_pie : Pie)
| pie_write (msg : string).

Definition pie_section (filtered : list Row) : PieOutput :=
  let dismissals := dismissals filtered in
  if (0 <? length dismissals)%nat then
    let counts := value_counts ((fun r : Row => Wicket r) <$> dismissals) in
    pie_chart {| pie_labels := counts.*1; pie_values := counts.*2 |}
  else pie_write "No dismissals recorded.".

(** ** The page, top to bottom *)

(** What a run of the script puts on the page. *)
Inductive Element :=
| metric_row (m : Metrics)
| chart_or_text (o : Output)
| pie_or_text (o : PieOutput).

(** The files on disk, by what [Image.open] does with each of them: it
    returns the picture, or it raises (the file is no picture, cannot be
    read, ...).  A path that is not on the disk raises
    [FileNotFoundError]. *)
Definition Image_open_at (disk : gmap string (result Image)) (path : string)
    : result Image :=
  match disk !! path with
  | Some outcome => outcome
  | None => Raise FileNotFoundError
  end.

(** The pictures of a disk that open: what [try: Image.open(...) except:
    pass] gets to see. *)
Definition pictures (disk : gmap string (result Image)) : gmap string Image :=
  omap (fun outcome : result Image =>
          match outcome with Ok img => Some img | Raise _ => None end) disk.

(** The beehive section on a disk: the picture is opened outside any
    [try], so whatever [Image.open] raises ends the run. *)
Definition beehive_section_at (disk : gmap string (result Image))
    (filtered : list Row) : result Output :=
  let beehive_data := beehive_data filtered in
  if (0 <? length beehive_data)%nat then
    do img <- Image_open_at disk "beehive_background.jpg";
    Ok (plotly_chart
          {| layout_image := Some img;
             data := [ fours beehive_data; sixes beehive_data; wickets beehive_data ] |})
  else Ok (write "No delivery data available.").

(** A run of the script: the elements shown, in order, and the exception
    that stopped it, if one did. *)
Definition page (disk : gmap string (result Image)) (csv : list CsvRow)
    (sel : Selection) : list Element * option Exception :=
  let data := load_data csv in
  let filtered := filtered data sel in
  match kpi_section filtered with
  | Raise e => ([], Some e)
  | Ok m =>
    let shown :=
      [ metric_row m;
        chart_or_text (wagon_section (pictures disk) filtered sel);
        pie_or_text (pie_section filtered);
        chart_or_text (catch_section (pictures disk) filtered) ] in
    match beehive_section_at disk filtered with
    | Raise e => (shown, Some e)
    | Ok o => ((shown ++ [chart_or_text o])%list, None)
    end
  end.

(** ** The KPI row on machine numbers *)

(** A 64-bit signed integer, after an operation that wraps around. *)
Definition wrap_int64 (z : Z) : Z :=
  (z + 2 ^ 63) mod 2 ^ 64 - 2 ^ 63.

(** [Series.sum()] of an int64 column, that is of a column of integers
    without a NaN cell: the additions wrap around, which comes to
    wrapping the exact sum ([sum_int64_stepwise]). *)
Definition sum_int64 (s : list (option Z)) : Z :=
  wrap_int64 (sum s).

Definition total_runs_int64 (filtered : list Row) : Z :=
  sum_int64 ((fun r : Row => Runs r) <$> filtered).

Definition boundary_runs_int64 (filtered : list Row) : Z :=
  sum_int64 ((fun r : Row => Runs r) <$>
             List.filter (fun r : Row => isin (Runs r) [4; 6]) filtered).

(** The float operations of the boundary percentage, each with its own
    rounding: the quotient of two 64-bit integers, the product by 100,
    and [round(_, 2)]. *)
Record FloatOps := {
  fl_div : Z -> Z -> Q;
  fl_times_100 : Q -> Q;
  fl_round2 : Q -> Q }.

Definition boundary_percentage_float (ops : FloatOps) (filtered : list Row)
    : result Q :=
  if 0 <? total_runs_int64 filtered then
    Ok (fl_round2 ops
          (fl_times_100 ops
             (fl_div ops (boundary_runs_int64 filtered)
                         (total_runs_int64 filtered))))
  else Ok 0%Q.

(** * The specification's notions *)

(** ** Filter engine *)

(** One facet, in the words of the specification: an empty selection
    imposes nothing, a non-empty one asks for a member. *)
Definition facet_allows {A} (selection : list A) (value : option A) : Prop :=
  selection ≠ [] → ∃ v, value = Some v ∧ v ∈ selection.

(** The three facets together. *)
Definition passes (sel : Selection) (r : Row) : Prop :=
  facet_allows (selected_teams sel) (Batting_Team r) ∧
  facet_allows (selected_batters sel) (Batter r) ∧
  facet_allows (selected_bowling sel) (Bowling_Type r).

(** What one step of [filtered] keeps, as a single mask. *)
Definition facet_mask {A} `{EqDecision A} (selection : list A) (value : option A) : bool :=
  negb (truthy selection) || isin value selection.

(** What the three steps of [filtered] keep together. *)
Definition keep (sel : Selection) (r : Row) : bool :=
  facet_mask (selected_teams sel) (Batting_Team r) &&
  (facet_mask (selected_batters sel) (Batter r) &&
   facet_mask (selected_bowling sel) (Bowling_Type r)).

(** The style codes the lookup table knows. *)
Definition style_codes : list string :=
  ["LLB"; "LOB"; "RLB"; "ROB"; "LF"; "LFM"; "LM"; "RF"; "RFM"; "RM"].

(** ** Metrics *)

(** An extra that denotes a wide: its text, letter case aside, has
    ["wide"] somewhere inside. *)
Definition is_wide (extra : option string) : Prop :=
  ∃ s pre post, extra = Some s ∧ lowercase s = pre +:+ "wide" +:+ post.

(** The wicket kinds that are no dismissal. *)
Definition pseudo_dismissals : list string :=
  ["Retired Hurt"; "Retired - Not Out"; "Absent"].

Definition counts_as_dismissal (r : Row) : Prop :=
  ∃ w, Wicket r = Some w ∧ w ∉ pseudo_dismissals.

(** The data-model invariant on [Runs]: present and non-negative. *)
Definition runs_invariant (r : Row) : Prop :=
  ∃ n, Runs r = Some n ∧ 0 <= n.

(** ** Spatial mapper *)

(** The centering of a field position, with the vertical axis flipped. *)
Definition centering (p : Q * Q) : Q * Q :=
  ((p.1 - 175)%Q, (175 - p.2)%Q).

(** The markers of a trace, as coordinate pairs. *)
Definition markers (t : Scatter) : list (option Q * option Q) :=
  zip (trace_x t) (trace_y t).

(** ** Sample data *)

(** A delivery of a right-arm fast bowler to the Lions' opener, with no
    extra. *)
Definition delivery (runs : Z) (wicket : option string)
    (field arrival : option Q * option Q) : CsvRow :=
  {| Batting_Team := Some "Lions"; Batter := Some "A Opener";
     Bowler_Type := Some "RF"; Runs := Some runs;
     Extra := None; Wicket := wicket;
     FieldX := field.1; FieldY := field.2;
     Analyst_Arrival_Line := arrival.1;
     Analyst_Arrival_Height := arrival.2 |}.

(** The three deliveries of the end-to-end scenario; a field the scenario
    does not list is absent. *)
Definition scenario : list CsvRow :=
  [ delivery 4 None (Some 200%Q, Some 150%Q) (None, None);
    delivery 6 None (None, None) (None, None);
    delivery 0 (Some "Caught") (Some 100%Q, Some 200%Q) (None, None) ].

(** Every value of every multiselect selected. *)
Definition all_selected : Selection :=
  {| selected_teams := ["Lions"]; selected_batters := ["A Opener"];
     selected_bowling := [Spin; Pace]; selected_runs := [1; 2; 3; 4; 5; 6] |}.

(** The same, with the runs-to-display multiselect cleared. *)
Definition no_runs_selected : Selection :=
  {| selected_teams := ["Lions"]; selected_batters := ["A Opener"];
     selected_bowling := [Spin; Pace]; selected_runs := [] |}.

(** The outputs the scenario names, with the number of wagon-wheel lines
    left open. *)
Definition scenario_outputs (segments : nat) (rows : list Row) (sel : Selection) : Prop :=
  total_runs rows = 10 ∧
  dismissals_count rows = 1%nat ∧
  (∃ q, batting_average rows = Ok (Number q) ∧ (q == 10)%Q) ∧
  length (wagon_lines (wagon rows sel)) = segments ∧
  markers (catch_trace (caught rows)) = [(Some (-75)%Q, Some (-25)%Q)].

(** A delivery by a bowler of style ["XX"], which the table does not list. *)
Definition unknown_style_delivery : CsvRow :=
  {| Batting_Team := Some "Lions"; Batter := Some "A Opener";
     Bowler_Type := Some "XX"; Runs := Some 1;
     Extra := None; Wicket := None;
     FieldX := None; FieldY := None;
     Analyst_Arrival_Line := None; Analyst_Arrival_Height := None |}.

(** A four off which the batter is also given out, with its arrival point. *)
Definition four_and_out : CsvRow :=
  delivery 4 (Some "Hit Wicket") (None, None) (Some (1 # 5), Some (9 # 10)).

(** A single whose arrival point was recorded. *)
Definition recorded_single : list CsvRow :=
  [ delivery 1 None (None, None) (Some (1 # 5), Some (9 # 10)) ].

(** A four and a single. *)
Definition four_and_single : list CsvRow :=
  [ delivery 4 None (None, None) (None, None);
    delivery 1 None (None, None) (None, None) ].

(** ** Further notions *)

(** A selection that lets through at least what another one does: it is
    empty, or the other one is non-empty and contained in it. *)
Definition widens {A} (narrow wide : list A) : Prop :=
  wide = [] ∨ (narrow ≠ [] ∧ narrow ⊆ wide).

Definition spin_codes : list string := ["LLB"; "LOB"; "RLB"; "ROB"].
Definition pace_codes : list string := ["LF"; "LFM"; "LM"; "RF"; "RFM"; "RM"].

(** The wicket kinds the KPI leaves out. *)
Definition is_pseudo_dismissal (r : Row) : bool :=
  isin (Wicket r) ["Retired Hurt"; "Retired - Not Out"; "Absent"].

(** The run values the multiselect offers. *)
Definition run_options : list Z := [1; 2; 3; 4; 5; 6].

(** ** More sample data *)

(** Three deliveries to two batters of one team, the first and the last
    bowled by spinners. *)
Definition two_batters : list CsvRow :=
  [ {| Batting_Team := Some "Lions"; Batter := Some "B Striker";
       Bowler_Type := Some "ROB"; Runs := Some 1;
       Extra := None; Wicket := None;
       FieldX := None; FieldY := None;
       Analyst_Arrival_Line := None; Analyst_Arrival_Height := None |};
    delivery 2 None (None, None) (None, None);
    {| Batting_Team := Some "Lions"; Batter := Some "A Opener";
       Bowler_Type := Some "LLB"; Runs := Some 0;
       Extra := None; Wicket := None;
       FieldX := None; FieldY := None;
       Analyst_Arrival_Line := None; Analyst_Arrival_Height := None |} ].

(** Every team and batter of the sample selected, but spin only. *)
Definition spin_only : Selection :=
  {| selected_teams := ["Lions"]; selected_batters := ["A Opener"];
     selected_bowling := [Spin]; selected_runs := [1; 2; 3; 4; 5; 6] |}.

(** ** Machine numbers *)

(** What binary floating point guarantees of the three operations: each
    is monotone and exact on 0, 1 and 100, so a quotient of a part by
    its whole stays between 0 and 1, its product by 100 between 0 and
    100, and the rounding of that between 0 and 100. *)
Record float_bounds (ops : FloatOps) : Prop := {
  fl_div_unit : forall b t : Z,
    0 <= b <= t -> 0 < t ->
    (0 <= fl_div ops b t)%Q /\ (fl_div ops b t <= 1)%Q;
  fl_times_100_range : forall q : Q,
    (0 <= q)%Q -> (q <= 1)%Q ->
    (0 <= fl_times_100 ops q)%Q /\ (fl_times_100 ops q <= 100)%Q;
  fl_round2_range : forall x : Q,
    (0 <= x)%Q -> (x <= 100)%Q ->
    (0 <= fl_round2 ops x)%Q /\ (fl_round2 ops x <= 100)%Q }.

(** A row of an int64 "Runs" column: the cell is present and fits. *)
Definition int64_runs (r : Row) : Prop :=
  exists n, Runs r = Some n /\ - 2 ^ 63 <= n < 2 ^ 63.

(** The three operations without rounding error, [round(_, 2)] apart. *)
Definition exact_ops : FloatOps :=
  {| fl_div := fun a b => (inject_Z a / inject_Z b)%Q;
     fl_times_100 := fun q => (q * 100)%Q;
     fl_round2 := fun x => round x 2 |}.

(** A four and two scores of 2^63 - 1, the largest 64-bit integer. *)
Definition overflowing_runs : list CsvRow :=
  [ delivery 4 None (None, None) (None, None);
    delivery (2 ^ 63 - 1) None (None, None) (None, None);
    delivery (2 ^ 63 - 1) None (None, None) (None, None) ].

(** * Properties *)

(** ** Cells and masks *)

Section cells.
Context {A : Type} `{EqDecision A}.

Lemma isin_true (v : option A) (values : list A) :
  isin v values = true ↔ ∃ a, v = Some a ∧ a ∈ values.
Proof.
  destruct v as [a|]; simpl.
  - rewrite bool_decide_eq_true. split; [eauto | intros (b & [= ->] & Hb); done].
  - split; [done | intros (b & [=] & _)].
Qed.

Lemma isin_nil (v : option A) : isin v [] = false.
Proof.
  destruct v as [a|]; [|done].
  unfold isin. apply bool_decide_eq_false, not_elem_of_nil.
Qed.

Lemma eq_cell_true (v : option A) (value : A) :
  eq_cell v value = true ↔ v = Some value.
Proof.
  destruct v as [a|]; simpl.
  - rewrite bool_decide_eq_true. split; congruence.
  - split; [done | congruence].
Qed.

Lemma notna_true (v : option A) : notna v = true ↔ ∃ a, v = Some a.
Proof.
  destruct v as [a|]; simpl; split; eauto; try done.
  intros [b Hb]. discriminate Hb.
Qed.

Lemma truthy_true (l : list A) : truthy l = true ↔ l ≠ [].
Proof. destruct l; simpl; split; congruence. Qed.
End cells.

Section row_wise.
Context {A : Type}.
Implicit Types (f g : A -> bool) (l : list A).

Lemma elem_of_List_filter f l (a : A) :
  a ∈ List.filter f l ↔ a ∈ l ∧ f a = true.
Proof. rewrite !list_elem_of_In. apply filter_In. Qed.

Lemma List_filter_twice f g l :
  List.filter g (List.filter f l) = List.filter (fun a => f a && g a) l.
Proof.
  induction l as [|a l IH]; simpl; [done|].
  destruct (f a); simpl; [destruct (g a)|]; by rewrite IH.
Qed.

Lemma List_filter_all l : List.filter (fun _ => true) l = l.
Proof. induction l as [|a l IH]; simpl; by rewrite ?IH. Qed.

Lemma List_filter_none f l : (∀ a, f a = false) → List.filter f l = [].
Proof. intros Hf. induction l as [|a l IH]; simpl; [done|]. by rewrite Hf. Qed.

Lemma List_filter_sublist f l : List.filter f l `sublist_of` l.
Proof.
  induction l as [|a l IH]; simpl; [done|].
  destruct (f a); by constructor.
Qed.

(** Counting under a mask is counting the rows with the property the
    mask decides. *)
Lemma length_mask_filter f (P : A -> Prop) `{!∀ a, Decision (P a)} l :
  (∀ a, f a = true ↔ P a) →
  length (List.filter f l) = length (filter P l).
Proof.
  intros Hmask. induction l as [|a l IH]; [done|].
  cbn [List.filter]. rewrite filter_cons.
  destruct (f a) eqn:Ha.
  - rewrite decide_True by by apply Hmask. simpl. by rewrite IH.
  - rewrite decide_False; [done|]. rewrite <- Hmask. congruence.
Qed.

Lemma zip_columns {B C} (x : A -> B) (y : A -> C) l :
  zip (x <$> l) (y <$> l) = (fun a => (x a, y a)) <$> l.
Proof.
  induction l as [|a l IH]; [done|]. rewrite !fmap_cons. simpl. by rewrite IH.
Qed.
End row_wise.

(** ** The filter engine *)

Lemma facet_mask_allows {A} `{EqDecision A} (selection : list A) (value : option A) :
  facet_mask selection value = true ↔ facet_allows selection value.
Proof.
  unfold facet_mask, facet_allows.
  rewrite orb_true_iff, negb_true_iff, isin_true, <- not_true_iff_false, truthy_true.
  destruct (decide (selection = [])) as [->|Hne].
  - split; [intros _ Hne | intros _; left; intros Hne]; by destruct Hne.
  - split; [intros [Hno|Hin] _; [by destruct Hno | done] | intros Hin; right; auto].
Qed.

Lemma keep_passes sel r : keep sel r = true ↔ passes sel r.
Proof.
  unfold keep, passes. rewrite !andb_true_iff, !facet_mask_allows. tauto.
Qed.

Lemma facet_step {A} `{EqDecision A} (selection : list A)
    (column : Row -> option A) (rows : list Row) :
  (if truthy selection
   then List.filter (fun r => isin (column r) selection) rows
   else rows)
  = List.filter (fun r => facet_mask selection (column r)) rows.
Proof.
  unfold facet_mask. destruct (truthy selection); simpl; [done|].
  by rewrite List_filter_all.
Qed.

Lemma filtered_keep data sel : filtered data sel = List.filter (keep sel) data.
Proof.
  unfold filtered, filter_teams, filter_batters, filter_bowling.
  rewrite (facet_step (selected_teams sel) (fun r : Row => Batting_Team r)).
  rewrite (facet_step (selected_batters sel) (fun r : Row => Batter r)).
  rewrite (facet_step (selected_bowling sel) Bowling_Type).
  rewrite !List_filter_twice. reflexivity.
Qed.

(** C2.  The filtered table is the input filtered row by row with the
    conjunction of the three facet conditions, where a facet whose
    selection is empty imposes no condition and a non-empty one asks the
    row's value to be a member: a row is kept exactly when it is in the
    input and passes every facet.  The result is therefore a sub-list of
    the input, and it is the whole input when the three selections are
    empty. *)
Theorem filtered_conjunction_of_facets (data : list Row) (sel : Selection) :
  (∃ mask : Row -> bool,
      (∀ r, mask r = true ↔ passes sel r) ∧
      filtered data sel = List.filter mask data) ∧
  (∀ r, r ∈ filtered data sel ↔ r ∈ data ∧ passes sel r) ∧
  filtered data sel `sublist_of` data ∧
  filtered data {| selected_teams := []; selected_batters := [];
                   selected_bowling := [];
                   selected_runs := selected_runs sel |} = data.
Proof.
  split_and!.
  - exists (keep sel). split; [apply keep_passes | apply filtered_keep].
  - intros r. by rewrite filtered_keep, elem_of_List_filter, keep_passes.
  - rewrite filtered_keep. apply List_filter_sublist.
  - done.
Qed.

(** ** Bowler styles outside the lookup table *)

Lemma unmapped_code (code : string) :
  code ∉ style_codes → bowling_type_mapping !! code = None.
Proof. intros Hout. by apply not_elem_of_list_to_map_1. Qed.

Lemma mapped_code (code : string) :
  code ∈ style_codes → is_Some (bowling_type_mapping !! code).
Proof.
  unfold style_codes. rewrite !elem_of_cons, elem_of_nil.
  intros H; repeat (destruct H as [->|H]; [by eexists|]); done.
Qed.

Lemma filtered_in_filter_bowling (data : list Row) (sel : Selection) (r : Row) :
  r ∈ filtered data sel → r ∈ filter_bowling sel data.
Proof.
  rewrite filtered_keep. unfold filter_bowling.
  rewrite (facet_step (selected_bowling sel) Bowling_Type).
  rewrite !elem_of_List_filter. unfold keep. rewrite !andb_true_iff. tauto.
Qed.

Lemma null_category_filter_bowling (rows : list Row) (sel : Selection) (r : Row) :
  Bowling_Type r = None →
  (r ∈ filter_bowling sel rows ↔ r ∈ rows ∧ selected_bowling sel = []).
Proof.
  intros Hnull. unfold filter_bowling.
  destruct (selected_bowling sel) as [|b bs] eqn:Hsel; simpl.
  - tauto.
  - rewrite elem_of_List_filter, Hnull. simpl. split; [by intros [_ ?] | by intros [_ ?]].
Qed.

(** C9.  A row whose bowler-style code is not a key of the lookup table
    gets a null bowling category.  Whenever the bowling-type selection is
    non-empty the row is absent from the filtered table, in particular
    under the default selection of both categories; it passes the
    bowling-type filter exactly when that selection is empty. *)
Theorem unmapped_style_excluded (c : CsvRow) (code : string)
    (sel : Selection) (rows : list Row) :
  Bowler_Type c = Some code →
  code ∉ style_codes →
  Bowling_Type (add_bowling_type c) = None ∧
  (selected_bowling sel ≠ [] → add_bowling_type c ∉ filtered rows sel) ∧
  (add_bowling_type c ∉
     filtered rows {| selected_teams := selected_teams sel;
                      selected_batters := selected_batters sel;
                      selected_bowling := [Spin; Pace];
                      selected_runs := selected_runs sel |}) ∧
  (add_bowling_type c ∈ filter_bowling sel rows ↔
   add_bowling_type c ∈ rows ∧ selected_bowling sel = []).
Proof.
  intros Hcode Hout.
  assert (Hnull : Bowling_Type (add_bowling_type c) = None).
  { simpl. rewrite Hcode. simpl. by apply unmapped_code. }
  split_and!.
  - exact Hnull.
  - intros Hsel Hin. apply filtered_in_filter_bowling in Hin.
    apply (null_category_filter_bowling _ _ _ Hnull) in Hin as [_ Hempty]. done.
  - intros Hin. apply filtered_in_filter_bowling in Hin.
    apply (null_category_filter_bowling _ _ _ Hnull) in Hin as [_ Hempty]. done.
  - by apply null_category_filter_bowling.
Qed.

Lemma unmapped_style_excluded_witness :
  Bowler_Type unknown_style_delivery = Some "XX" ∧
  ("XX" ∉ style_codes) ∧
  Bowling_Type (add_bowling_type unknown_style_delivery) = None ∧
  (add_bowling_type unknown_style_delivery ∉
     filtered (load_data [unknown_style_delivery]) all_selected).
Proof.
  assert (Hout : "XX" ∉ style_codes).
  { apply (bool_decide_unpack _). vm_compute. exact I. }
  destruct (unmapped_style_excluded unknown_style_delivery "XX" all_selected
              (load_data [unknown_style_delivery]) eq_refl Hout)
    as (Hnull & _ & Hdefault & _).
  split_and!; [reflexivity | exact Hout | exact Hnull | exact Hdefault].
Defined.

(** ** Numbers *)

Lemma round_half_even_bounds (q : Q) (lo hi : Z) :
  (inject_Z lo <= q)%Q → (q <= inject_Z hi)%Q →
  lo <= round_half_even q <= hi.
Proof.
  intros Hlo Hhi.
  assert (Hf1 : lo <= Qfloor q).
  { rewrite <- (Qfloor_Z lo). by apply Qfloor_resp_le. }
  assert (Hf2 : Qfloor q <= hi).
  { rewrite <- (Qfloor_Z hi). by apply Qfloor_resp_le. }
  assert (Hup : (1 # 2 <= q - inject_Z (Qfloor q))%Q → Qfloor q + 1 <= hi).
  { intros Hhalf.
    assert (Hlt : (inject_Z (Qfloor q) < inject_Z hi)%Q) by lra.
    rewrite <- Zlt_Qlt in Hlt. lia. }
  unfold round_half_even.
  destruct (q - inject_Z (Qfloor q) ?= 1 # 2)%Q eqn:Hcmp.
  - apply Qeq_alt in Hcmp. destruct (Z.even (Qfloor q)); [lia|].
    split; [lia|]. apply Hup. lra.
  - lia.
  - apply Qgt_alt in Hcmp. split; [lia|]. apply Hup. lra.
Qed.

(** Rounding to two decimals stays between 0 and 100. *)
Lemma round_2_bounds (x : Q) :
  (0 <= x)%Q → (x <= 100)%Q → (0 <= round x 2)%Q ∧ (round x 2 <= 100)%Q.
Proof.
  intros Hlo Hhi. unfold round.
  change (inject_Z (10 ^ Z.of_nat 2)) with (inject_Z 100).
  destruct (round_half_even_bounds (x * inject_Z 100) 0 10000) as [Hn0 Hn1].
  { change (inject_Z 0) with 0%Q. change (inject_Z 100) with 100%Q. lra. }
  { change (inject_Z 10000) with 10000%Q. change (inject_Z 100) with 100%Q. lra. }
  rewrite Zle_Qle in Hn0, Hn1.
  change (inject_Z 0) with 0%Q in Hn0. change (inject_Z 10000) with 10000%Q in Hn1.
  change (inject_Z 100) with 100%Q in *.
  set (n := inject_Z (round_half_even (x * 100))) in *.
  split.
  - apply Qle_shift_div_l; lra.
  - apply Qle_shift_div_r; lra.
Qed.

(** A division by a non-zero count goes through. *)
Lemma truediv_inject_Z (a : Q) (z : Z) :
  z ≠ 0 → truediv a (inject_Z z) = Ok (a / inject_Z z)%Q.
Proof.
  intros Hz. unfold truediv.
  destruct (Qeq_bool (inject_Z z) 0) eqn:Heq; [|done].
  apply Qeq_bool_eq in Heq. unfold Qeq in Heq. simpl in Heq. lia.
Qed.

Lemma truediv_zero (a : Q) : truediv a 0 = Raise ZeroDivisionError.
Proof. reflexivity. Qed.

Lemma sum_cons (v : option Z) (s : list (option Z)) :
  sum (v :: s) = default 0 v + sum s.
Proof. reflexivity. Qed.

(** ** Metrics *)

Lemma total_runs_cons (r : Row) (rows : list Row) :
  total_runs (r :: rows) = default 0 (Runs r) + total_runs rows.
Proof. reflexivity. Qed.

Lemma boundary_runs_le_total (rows : list Row) :
  Forall (fun r : Row => ∀ n, Runs r = Some n → 0 <= n) rows →
  0 <= boundary_runs rows <= total_runs rows.
Proof.
  unfold boundary_runs, total_runs.
  induction 1 as [|r rows Hr _ IH]; [done|].
  assert (0 <= default 0 (Runs r)).
  { destruct (Runs r) as [n|]; simpl; [by apply Hr | lia]. }
  cbn [List.filter].
  destruct (isin (Runs r) [4; 6]); rewrite ?fmap_cons, ?sum_cons; lia.
Qed.

(** C3.  The KPI computation returns for every table, the empty one
    included, and never raises: without a dismissal the average is the
    text sentinel, without a ball faced the strike rate is 0, and without
    runs the boundary percentage is 0. *)
Theorem kpi_section_never_raises (rows : list Row) :
  (∃ m, kpi_section rows = Ok m ∧
        m_total_runs m = total_runs rows ∧
        m_balls_faced m = balls_faced rows ∧
        m_dismissals_count m = dismissals_count rows ∧
        (m_dismissals_count m = 0%nat → m_batting_average m = Text no_average) ∧
        (m_balls_faced m = 0%nat → m_strike_rate m = 0%Q) ∧
        (m_total_runs m = 0 → m_boundary_percentage m = 0%Q)) ∧
  kpi_section [] =
    Ok {| m_total_runs := 0; m_balls_faced := 0; m_dismissals_count := 0;
          m_batting_average := Text no_average;
          m_strike_rate := 0%Q; m_boundary_percentage := 0%Q |}.
Proof.
  split; [|reflexivity].
  unfold kpi_section, batting_average, strike_rate, boundary_percentage.
  destruct (0 <? dismissals_count rows)%nat eqn:Hd;
    [apply Nat.ltb_lt in Hd; rewrite truediv_inject_Z by lia
    |apply Nat.ltb_ge in Hd];
  (destruct (0 <? balls_faced rows)%nat eqn:Hb;
    [apply Nat.ltb_lt in Hb; rewrite truediv_inject_Z by lia
    |apply Nat.ltb_ge in Hb]);
  (destruct (0 <? total_runs rows) eqn:Ht;
    [apply Z.ltb_lt in Ht; rewrite truediv_inject_Z by lia
    |apply Z.ltb_ge in Ht]);
  simpl; eexists; (split; [reflexivity|]); simpl;
  split_and!; try reflexivity; intros; try reflexivity; lia.
Qed.

(** *** Wides *)

Lemma match_here_prefix (pat s : string) :
  match_here false pat s = true ↔ ∃ post, lowercase s = lowercase pat +:+ post.
Proof.
  revert s. induction pat as [|p pat IH]; intros [|c s]; simpl.
  - split; [eauto | done].
  - split; [eauto | done].
  - split; [done | intros [post [=]]].
  - rewrite andb_true_iff, bool_decide_eq_true, IH. split.
    + intros [Hc [post Hpost]]. exists post. by rewrite Hc, Hpost.
    + intros [post [= Hc Hpost]]. eauto.
Qed.

(** The search finds the pattern exactly when the subject, in lower
    case, has the pattern, in lower case, somewhere inside. *)
Lemma search_substring (pat s : string) :
  search false pat s = true ↔
  ∃ pre post, lowercase s = pre +:+ lowercase pat +:+ post.
Proof.
  induction s as [|c s IH]; simpl.
  - rewrite orb_false_r, match_here_prefix. split.
    + intros [post Hpost]. by exists "", post.
    + intros ([|a pre] & post & Hpost); [eauto | discriminate Hpost].
  - rewrite orb_true_iff, IH, (match_here_prefix pat (String c s)). simpl. split.
    + intros [[post Hpost] | (pre & post & Hpost)].
      * by exists "", post.
      * exists (String (lower c) pre), post. simpl. by rewrite Hpost.
    + intros ([|a pre] & post & Hpost); simpl in Hpost.
      * left. eauto.
      * right. injection Hpost as _ Hpost. eauto.
Qed.

Lemma is_wide_search (s : string) :
  search false "Wide" s = true ↔ is_wide (Some s).
Proof.
  rewrite search_substring. change (lowercase "Wide") with "wide".
  unfold is_wide. split.
  - intros (pre & post & H). eauto 6.
  - intros (s' & pre & post & [= <-] & H). eauto.
Qed.

Lemma nan_is_no_wide : ¬ is_wide None.
Proof. by intros (s & pre & post & [=] & _). Qed.

#[global] Instance is_wide_dec (extra : option string) : Decision (is_wide extra).
Proof.
  destruct extra as [s|].
  - destruct (search false "Wide" s) eqn:Hs.
    + left. by apply is_wide_search.
    + right. rewrite <- is_wide_search. congruence.
  - right. apply nan_is_no_wide.
Defined.



(** *** Dismissals *)

Lemma is_dismissal_true (r : Row) :
  is_dismissal r = true ↔ counts_as_dismissal r.
Proof.
  unfold is_dismissal, counts_as_dismissal.
  rewrite andb_true_iff, negb_true_iff, notna_true, <- not_true_iff_false, isin_true.
  split.
  - intros [[w Hw] Hnot]. exists w. split; [done|]. intros Hin. apply Hnot. eauto.
  - intros (w & Hw & Hout). split; [eauto|].
    intros (w' & Hw' & Hin). assert (w' = w) as -> by congruence. by apply Hout.
Qed.

#[global] Instance counts_as_dismissal_dec (r : Row) : Decision (counts_as_dismissal r).
Proof.
  destruct (is_dismissal r) eqn:Hd.
  - left. by apply is_dismissal_true.
  - right. rewrite <- is_dismissal_true. congruence.
Defined.

(** C5.  The dismissal count is the number of rows whose wicket is
    present and is none of "Retired Hurt", "Retired - Not Out" and
    "Absent". *)
Theorem dismissals_count_spec (rows : list Row) :
  dismissals_count rows = length (filter counts_as_dismissal rows).
Proof. apply length_mask_filter, is_dismissal_true. Qed.

(** *** Boundary percentage *)

Lemma wrap_int64_small (z : Z) : - 2 ^ 63 <= z < 2 ^ 63 -> wrap_int64 z = z.
Proof. intros Hz. unfold wrap_int64. rewrite Z.mod_small; lia. Qed.

Lemma wrap_int64_add (x y : Z) :
  wrap_int64 (wrap_int64 x + wrap_int64 y) = wrap_int64 (x + y).
Proof.
  unfold wrap_int64. f_equal.
  pose proof (Z.div_mod (x + 2 ^ 63) (2 ^ 64)) as Hx.
  pose proof (Z.div_mod (y + 2 ^ 63) (2 ^ 64)) as Hy.
  set (qx := (x + 2 ^ 63) / 2 ^ 64) in *. set (rx := (x + 2 ^ 63) mod 2 ^ 64) in *.
  set (qy := (y + 2 ^ 63) / 2 ^ 64) in *. set (ry := (y + 2 ^ 63) mod 2 ^ 64) in *.
  replace (rx - 2 ^ 63 + (ry - 2 ^ 63) + 2 ^ 63)
    with (x + y + 2 ^ 63 + (- qx - qy) * 2 ^ 64) by lia.
  apply Z_mod_plus_full.
Qed.

Lemma wrap_int64_step (a n : Z) :
  wrap_int64 (wrap_int64 a + n) = wrap_int64 (a + n).
Proof.
  unfold wrap_int64. f_equal.
  pose proof (Z.div_mod (a + 2 ^ 63) (2 ^ 64)) as Ha.
  set (qa := (a + 2 ^ 63) / 2 ^ 64) in *. set (ra := (a + 2 ^ 63) mod 2 ^ 64) in *.
  replace (ra - 2 ^ 63 + n + 2 ^ 63)
    with (a + n + 2 ^ 63 + (- qa) * 2 ^ 64) by lia.
  apply Z_mod_plus_full.
Qed.

(** Adding the cells one by one, each addition wrapping around, gives
    the exact sum wrapped around once. *)
Lemma sum_int64_stepwise (s : list Z) :
  fold_left (fun acc n => wrap_int64 (acc + n)) s 0 = sum_int64 (Some <$> s).
Proof.
  unfold sum_int64.
  enough (H : forall a, fold_left (fun acc n => wrap_int64 (acc + n)) s (wrap_int64 a)
                        = wrap_int64 (a + sum (Some <$> s)))
    by exact (H 0).
  induction s as [|n s IH]; intros a.
  - simpl. by rewrite Z.add_0_r.
  - rewrite fmap_cons, sum_cons. cbn [fold_left default].
    rewrite wrap_int64_step, IH. f_equal. unfold id. lia.
Qed.

Lemma exact_ops_bounds : float_bounds exact_ops.
Proof.
  split; simpl.
  - intros b t Hb Ht.
    assert (0 < inject_Z t)%Q by (change 0%Q with (inject_Z 0); by rewrite <- Zlt_Qlt).
    split.
    + apply Qle_shift_div_l; [done|]. rewrite Qmult_0_l.
      change 0%Q with (inject_Z 0). rewrite <- Zle_Qle. lia.
    + apply Qle_shift_div_r; [done|]. rewrite Qmult_1_l. rewrite <- Zle_Qle. lia.
  - intros q H0 H1. split; lra.
  - apply round_2_bounds.
Qed.

(** The bound fails once the column sum passes the 64-bit range: the
    total of 4, 2^63 - 1 and 2^63 - 1 wraps around to 2, and the four
    runs of the boundary come to 200 percent of it; the quotient 2, the
    product 200 and its rounding are exact in binary floating point. *)
Lemma boundary_percentage_overflow_exceeds_100 :
  ¬ (Forall runs_invariant (load_data overflowing_runs) →
     0 < total_runs_int64 (load_data overflowing_runs) →
     ∃ p : Q,
       boundary_percentage_float exact_ops (load_data overflowing_runs) = Ok p ∧
       (0 <= p)%Q ∧ (p <= 100)%Q).
Proof.
  intros Hclaim.
  destruct Hclaim as (p & Hp & _ & Hle).
  - repeat constructor; eexists; (split; [reflexivity | lia]).
  - reflexivity.
  - vm_compute in Hp. injection Hp as <-. by vm_compute in Hle.
Qed.

(** C6, amended.  On a table whose runs are all present and non-negative,
    whose total is positive and stays below 2^63, so that the 64-bit
    column sums do not wrap around, the boundary percentage is computed
    and lies between 0 and 100, whatever the rounding of the float
    operations within what binary floating point guarantees. *)
Theorem boundary_percentage_bounded_without_overflow
    (ops : FloatOps) (rows : list Row) :
  float_bounds ops →
  Forall runs_invariant rows →
  total_runs rows < 2 ^ 63 →
  0 < total_runs_int64 rows →
  ∃ p : Q,
    boundary_percentage_float ops rows = Ok p ∧ (0 <= p)%Q ∧ (p <= 100)%Q.
Proof.
  intros Hops Hinv Hfit Hpos.
  destruct (boundary_runs_le_total rows) as [Hb0 Hb1].
  { eapply Forall_impl; [exact Hinv|]. intros r (n & Hn & Hge) m Hm. congruence. }
  assert (Ht : total_runs_int64 rows = total_runs rows).
  { apply wrap_int64_small. fold (total_runs rows). lia. }
  assert (Hb : boundary_runs_int64 rows = boundary_runs rows).
  { apply wrap_int64_small. fold (boundary_runs rows). lia. }
  unfold boundary_percentage_float.
  rewrite (proj2 (Z.ltb_lt _ _) Hpos).
  eexists. split; [reflexivity|].
  rewrite Ht in Hpos |- *. rewrite Hb.
  destruct (fl_div_unit ops Hops (boundary_runs rows) (total_runs rows))
    as [Hq0 Hq1]; [lia | lia |].
  destruct (fl_times_100_range ops Hops _ Hq0 Hq1) as [Hx0 Hx1].
  exact (fl_round2_range ops Hops _ Hx0 Hx1).
Qed.

Lemma boundary_percentage_bounded_without_overflow_witness :
  float_bounds exact_ops ∧
  Forall runs_invariant (load_data four_and_single) ∧
  total_runs (load_data four_and_single) < 2 ^ 63 ∧
  0 < total_runs_int64 (load_data four_and_single) ∧
  ∃ p : Q,
    boundary_percentage_float exact_ops (load_data four_and_single) = Ok p ∧
    (0 <= p)%Q ∧ (p <= 100)%Q.
Proof.
  assert (Hinv : Forall runs_invariant (load_data four_and_single)).
  { repeat constructor; eexists; (split; [reflexivity | lia]). }
  assert (Hfit : total_runs (load_data four_and_single) < 2 ^ 63) by reflexivity.
  assert (Hpos : 0 < total_runs_int64 (load_data four_and_single)) by reflexivity.
  split_and!; [exact exact_ops_bounds | exact Hinv | exact Hfit | exact Hpos |].
  exact (boundary_percentage_bounded_without_overflow exact_ops
           (load_data four_and_single) exact_ops_bounds Hinv Hfit Hpos).
Defined.

(** ** Spatial mapper *)

Lemma wagon_has_coordinates (rows : list Row) (sel : Selection) (r : Row) :
  r ∈ wagon rows sel →
  r ∈ rows ∧
  (∃ n, Runs r = Some n ∧ n ∈ selected_runs sel ∧ 0 < n) ∧
  ∃ fx fy, FieldX r = Some fx ∧ FieldY r = Some fy.
Proof.
  unfold wagon. rewrite elem_of_List_filter, !andb_true_iff, isin_true, !notna_true.
  intros (Hin & ((((n & Hn & Hsel) & Hpos) & [fx Hx]) & [fy Hy])).
  split; [done|]. split; [|eauto].
  exists n. rewrite Hn in Hpos. simpl in Hpos. apply Z.ltb_lt in Hpos. done.
Qed.

Lemma caught_has_coordinates (rows : list Row) (r : Row) :
  r ∈ caught rows →
  r ∈ rows ∧ Wicket r = Some "Caught" ∧
  ∃ fx fy, FieldX r = Some fx ∧ FieldY r = Some fy.
Proof.
  unfold caught. rewrite elem_of_List_filter, !andb_true_iff, eq_cell_true, !notna_true.
  intros (Hin & ((Hw & [fx Hx]) & [fy Hy])). eauto 6.
Qed.

(** C7.  The wagon wheel has one line per row it maps, in order; the
    line of a row, in the series the loop builds and in the chart the
    section shows, runs from the origin to the centered position
    (fieldX - 175, 175 - fieldY) of that row.  Every marker of the catch
    map sits at the centered position of its row, by the same transform,
    and the transform sends (175, 175) to (0, 0). *)
Theorem both_field_charts_center_alike :
  (∀ (files : gmap string Image) (rows : list Row) (sel : Selection)
     (i : nat) (r : Row),
      wagon rows sel !! i = Some r →
      ∃ (fx fy : Q) (t : Scatter) (fig : Figure),
        FieldX r = Some fx ∧ FieldY r = Some fy ∧
        wagon_lines (wagon rows sel) !! i = Some t ∧
        trace_x t = [Some 0%Q; Some (centering (fx, fy)).1] ∧
        trace_y t = [Some 0%Q; Some (centering (fx, fy)).2] ∧
        wagon_section files rows sel = plotly_chart fig ∧
        data fig !! i = Some t) ∧
  (∀ (rows : list Row) (sel : Selection),
      length (wagon_lines (wagon rows sel)) = length (wagon rows sel)) ∧
  (∀ (rows : list Row) (i : nat) (r : Row),
      caught rows !! i = Some r →
      ∃ fx fy,
        FieldX r = Some fx ∧ FieldY r = Some fy ∧
        markers (catch_trace (caught rows)) !! i =
          Some (Some (centering (fx, fy)).1, Some (centering (fx, fy)).2)) ∧
  centering (175%Q, 175%Q) = (0%Q, 0%Q).
Proof.
  split_and!.
  - intros files rows sel i r Hi.
    destruct (wagon_has_coordinates rows sel r) as (_ & _ & fx & fy & Hx & Hy).
    { by eapply list_elem_of_lookup_2. }
    assert (Ht : wagon_lines (wagon rows sel) !! i = Some (wagon_line r)).
    { unfold wagon_lines. by rewrite list_lookup_fmap, Hi. }
    exists fx, fy, (wagon_line r).
    exists {| layout_image := optional_background files "wagon_background.png";
              data := (wagon_lines (wagon rows sel)
                       ++ (legend_entry <$> run_colors))%list |}.
    split_and!; try done.
    + unfold wagon_line. simpl. by rewrite Hx.
    + unfold wagon_line. simpl. by rewrite Hy.
    + unfold wagon_section. destruct (wagon rows sel); [|done].
      by rewrite lookup_nil in Hi.
    + cbn [data]. by apply lookup_app_l_Some.
  - intros rows sel. unfold wagon_lines. apply length_fmap.
  - intros rows i r Hi.
    destruct (caught_has_coordinates rows r) as (_ & _ & fx & fy & Hx & Hy).
    { by eapply list_elem_of_lookup_2. }
    exists fx, fy. unfold markers, catch_trace, x_vals, y_vals. simpl.
    rewrite zip_columns, list_lookup_fmap, Hi. simpl. by rewrite Hx, Hy.
  - reflexivity.
Qed.

(** ** Runs to display *)

(** C10.  With no run value selected the wagon wheel has no row at all,
    whatever the table, and the section shows its placeholder text; the
    team, batter and bowling-type selections, when empty, let every row
    through instead. *)
Theorem empty_runs_selection_empties_wagon
    (files : gmap string Image) (rows : list Row) (sel : Selection) :
  selected_runs sel = [] →
  wagon rows sel = [] ∧
  wagon_lines (wagon rows sel) = [] ∧
  wagon_section files rows sel = write "No scoring shots available." ∧
  filtered rows {| selected_teams := []; selected_batters := [];
                   selected_bowling := []; selected_runs := [] |} = rows.
Proof.
  intros Hnone.
  assert (Hw : wagon rows sel = []).
  { unfold wagon. apply List_filter_none. intros r. by rewrite Hnone, isin_nil. }
  split_and!; [done | by rewrite Hw | | done].
  unfold wagon_section. by rewrite Hw.
Qed.

Lemma empty_runs_selection_empties_wagon_witness :
  selected_runs no_runs_selected = [] ∧
  length (wagon (load_data scenario) all_selected) = 1%nat ∧
  wagon (load_data scenario) no_runs_selected = [] ∧
  wagon_section ∅ (load_data scenario) no_runs_selected =
    write "No scoring shots available.".
Proof.
  destruct (empty_runs_selection_empties_wagon ∅ (load_data scenario)
              no_runs_selected eq_refl) as (Hw & _ & Hs & _).
  split_and!; [reflexivity | reflexivity | exact Hw | exact Hs].
Defined.

(** ** Beehive *)

Lemma beehive_trace_marker (rows : list Row) (mask : Row -> bool)
    (color name : string) (r : Row) :
  r ∈ beehive_data rows → mask r = true →
  (Analyst_Arrival_Line r, Analyst_Arrival_Height r)
    ∈ markers (beehive_trace (beehive_data rows) mask color name).
Proof.
  intros Hr Hm. unfold markers, beehive_trace. simpl.
  rewrite zip_columns.
  apply (list_elem_of_fmap_2
           (fun r : Row => (Analyst_Arrival_Line r, Analyst_Arrival_Height r))).
  by apply elem_of_List_filter.
Qed.

(** The beehive needs its picture: with rows to show and no file, the
    section raises. *)
Lemma beehive_section_missing_picture (files : gmap string Image) (rows : list Row) :
  files !! "beehive_background.jpg" = None →
  beehive_data rows ≠ [] →
  beehive_section files rows = Raise FileNotFoundError.
Proof.
  intros Hfile Hrows. unfold beehive_section, Image_open. rewrite Hfile.
  by destruct (beehive_data rows).
Qed.

(** C8.  A filtered row with both arrival coordinates has a marker in the
    series of fours when its runs are 4, in the series of sixes when its
    runs are 6, and in the series of dismissals when its wicket is
    present, each independently of the others, so a row meeting several
    conditions is in several series; these three series are the traces
    of the chart the section shows once its picture is open. *)
Theorem beehive_series_overlap (data : list Row) (sel : Selection)
    (r : Row) (line height : Q) :
  r ∈ filtered data sel →
  Analyst_Arrival_Line r = Some line →
  Analyst_Arrival_Height r = Some height →
  let beehive_data := beehive_data (filtered data sel) in
  (Runs r = Some 4 → (Some line, Some height) ∈ markers (fours beehive_data)) ∧
  (Runs r = Some 6 → (Some line, Some height) ∈ markers (sixes beehive_data)) ∧
  (Wicket r ≠ None → (Some line, Some height) ∈ markers (wickets beehive_data)) ∧
  (∀ (files : gmap string Image) (img : Image),
      files !! "beehive_background.jpg" = Some img →
      beehive_section files (filtered data sel) =
        Ok (plotly_chart
              {| layout_image := Some img;
                 data := [fours beehive_data; sixes beehive_data;
                          wickets beehive_data] |})).
Proof.
  intros Hr Hl Hh bd.
  assert (Hbd : r ∈ bd).
  { apply elem_of_List_filter. split; [done|]. by rewrite Hl, Hh. }
  rewrite <- Hl, <- Hh. split_and!.
  - intros H4. apply beehive_trace_marker; [done|]. by apply eq_cell_true.
  - intros H6. apply beehive_trace_marker; [done|]. by apply eq_cell_true.
  - intros Hw. apply beehive_trace_marker; [done|]. by destruct (Wicket r).
  - intros files img Himg. unfold beehive_section. fold bd.
    destruct bd as [|r' bd'] eqn:Hbd'; [by apply elem_of_nil in Hbd|].
    unfold Image_open. by rewrite Himg.
Qed.

Lemma beehive_series_overlap_witness :
  add_bowling_type four_and_out ∈ filtered (load_data [four_and_out]) all_selected ∧
  ((Some (1 # 5), Some (9 # 10)) ∈
     markers (fours (beehive_data (filtered (load_data [four_and_out]) all_selected)))) ∧
  ((Some (1 # 5), Some (9 # 10)) ∈
     markers (wickets (beehive_data (filtered (load_data [four_and_out]) all_selected)))).
Proof.
  assert (Hin : add_bowling_type four_and_out
                  ∈ filtered (load_data [four_and_out]) all_selected).
  { change (add_bowling_type four_and_out ∈ [add_bowling_type four_and_out]).
    apply list_elem_of_here. }
  destruct (beehive_series_overlap (load_data [four_and_out]) all_selected
              (add_bowling_type four_and_out) (1 # 5) (9 # 10) Hin eq_refl eq_refl)
    as (H4 & _ & Hw & _).
  split_and!; [exact Hin | exact (H4 eq_refl) | apply Hw; discriminate].
Defined.

(** ** End-to-end scenario *)

(** The scenario as literally written — a 4 with a field position, a 6
    with none, a caught duck with one, every value selected — does not
    give two wagon-wheel lines. *)
Lemma scenario_not_two_segments :
  ¬ scenario_outputs 2 (filtered (load_data scenario) all_selected) all_selected.
Proof.
  intros (_ & _ & _ & Hsegments & _).
  vm_compute in Hsegments. discriminate Hsegments.
Qed.

(** The 6 of the scenario is the row the wagon wheel leaves out. *)
Lemma scenario_six_has_no_line :
  wagon (filtered (load_data scenario) all_selected) all_selected
  = [add_bowling_type (delivery 4 None (Some 200%Q, Some 150%Q) (None, None))].
Proof. reflexivity. Qed.

(** C1, amended.  Take three rows: a 4 without wicket at field position
    (200, 150), a 6 without wicket, and a 0 caught at (100, 200), under
    selections that let the three rows through and show the runs 1 to 6.
    Then the total is 10, there is one dismissal, the average is 10, the
    catch map has the single marker (-75, -25), and the wagon wheel has
    one line for the 4 plus one for the 6 only if the 6 has both field
    coordinates: 1 line for the 6 as the scenario writes it. *)
Theorem scenario_end_to_end (a b c : Row) (sel : Selection) :
  Runs a = Some 4 → Wicket a = None →
  FieldX a = Some 200%Q → FieldY a = Some 150%Q →
  Runs b = Some 6 → Wicket b = None →
  Runs c = Some 0 → Wicket c = Some "Caught" →
  FieldX c = Some 100%Q → FieldY c = Some 200%Q →
  filtered [a; b; c] sel = [a; b; c] →
  selected_runs sel = [1; 2; 3; 4; 5; 6] →
  scenario_outputs
    (if notna (FieldX b) && notna (FieldY b) then 2 else 1)
    (filtered [a; b; c] sel) sel.
Proof.
  intros Ha Hwa Hxa Hya Hb Hwb Hc Hwc Hxc Hyc -> Hruns.
  assert (Hd : dismissals_count [a; b; c] = 1%nat).
  { unfold dismissals_count, is_dismissal. cbn [List.filter].
    by rewrite Hwa, Hwb, Hwc. }
  assert (Ht : total_runs [a; b; c] = 10).
  { rewrite !total_runs_cons, Ha, Hb, Hc. reflexivity. }
  unfold scenario_outputs. split_and!.
  - exact Ht.
  - exact Hd.
  - unfold batting_average. rewrite Hd, Ht. simpl. eexists. split; reflexivity.
  - unfold wagon. cbn [List.filter]. rewrite Hruns, Ha, Hb, Hc, Hxa, Hya.
    destruct (FieldX b), (FieldY b); reflexivity.
  - assert (caught [a; b; c] = [c]) as ->.
    { unfold caught. cbn [List.filter]. by rewrite Hwa, Hwb, Hwc, Hxc, Hyc. }
    unfold markers, catch_trace, x_vals, y_vals. simpl. by rewrite Hxc, Hyc.
Qed.

Lemma scenario_end_to_end_witness :
  filtered (load_data scenario) all_selected = load_data scenario ∧
  scenario_outputs 1 (filtered (load_data scenario) all_selected) all_selected.
Proof.
  split; [reflexivity|].
  exact (scenario_end_to_end
           (add_bowling_type (delivery 4 None (Some 200%Q, Some 150%Q) (None, None)))
           (add_bowling_type (delivery 6 None (None, None) (None, None)))
           (add_bowling_type (delivery 0 (Some "Caught") (Some 100%Q, Some 200%Q) (None, None)))
           all_selected
           eq_refl eq_refl eq_refl eq_refl eq_refl eq_refl
           eq_refl eq_refl eq_refl eq_refl eq_refl eq_refl).
Defined.

(** * Further properties *)

(** ** Sidebar options and defaults *)

Lemma str_compare_no_Gt_trans (s1 s2 s3 : string) :
  String.compare s1 s2 ≠ Gt → String.compare s2 s3 ≠ Gt → String.compare s1 s3 ≠ Gt.
Proof.
  revert s2 s3. induction s1 as [|a s1 IH]; intros [|b s2] [|c s3]; simpl; try congruence.
  unfold Ascii.compare.
  destruct (N.compare_spec (N_of_ascii a) (N_of_ascii b)),
           (N.compare_spec (N_of_ascii b) (N_of_ascii c)),
           (N.compare_spec (N_of_ascii a) (N_of_ascii c));
    try congruence; try lia; eauto.
Qed.

#[global] Instance str_le_trans : Transitive str_le.
Proof.
  intros a b c. unfold str_le, String.leb. intros Hab Hbc.
  pose proof (str_compare_no_Gt_trans a b c) as H.
  destruct (String.compare a b), (String.compare b c), (String.compare a c);
    try done; exfalso; by apply H.
Qed.

#[global] Instance str_le_total : Total str_le.
Proof. intros a b. apply String.leb_total. Qed.

#[global] Instance str_le_antisym : AntiSymm (=) str_le.
Proof. intros a b. apply String.leb_antisym. Qed.

#[global] Instance str_le_refl : Reflexive str_le.
Proof. intros a. by destruct (str_le_total a a). Qed.

Section unique.
Context {A : Type} `{EqDecision A}.

Lemma elem_of_unique (s : list A) (a : A) : a ∈ unique s ↔ a ∈ s.
Proof.
  induction s as [|x s IH]; simpl; [done|].
  rewrite !elem_of_cons, elem_of_List_filter, IH, negb_true_iff, bool_decide_eq_false.
  split.
  - intros [Hx|[Hs _]]; [by left | by right].
  - intros [Hx|Hs]; [by left|].
    destruct (decide (a = x)) as [Heq|Hne]; [by left | by right].
Qed.

Lemma NoDup_List_filter (f : A -> bool) (l : list A) : NoDup l → NoDup (List.filter f l).
Proof.
  intros Hl. eapply sublist_NoDup; [exact Hl | apply List_filter_sublist].
Qed.

Lemma NoDup_unique (s : list A) : NoDup (unique s).
Proof.
  induction s as [|x s IH]; simpl; constructor.
  - rewrite elem_of_List_filter, negb_true_iff, bool_decide_eq_false. by intros [_ ?].
  - by apply NoDup_List_filter.
Qed.
End unique.

Lemma elem_of_dropna {A} (s : list (option A)) (a : A) : a ∈ dropna s ↔ Some a ∈ s.
Proof.
  unfold dropna. rewrite list_elem_of_omap. split.
  - intros (o & Ho & Hid). simpl in Hid. by subst.
  - intros Ha. by exists (Some a).
Qed.

Lemma elem_of_sorted (values : list string) (v : string) : v ∈ sorted values ↔ v ∈ values.
Proof. unfold sorted. by rewrite merge_sort_Permutation. Qed.

(** The options of a facet's multiselect. *)
Lemma elem_of_options (column : Row -> option string) (data : list Row) (v : string) :
  v ∈ sorted (unique (dropna (column <$> data))) ↔ ∃ r, r ∈ data ∧ column r = Some v.
Proof.
  rewrite elem_of_sorted, elem_of_unique, elem_of_dropna, list_elem_of_fmap.
  split; intros (r & H1 & H2); exists r; eauto.
Qed.

(** X1.  The options of the team multiselect are in ascending order,
    without repetition, and are exactly the teams that occur in a row of
    the table; rows without a team contribute nothing. *)
Theorem team_options (data : list Row) :
  Sorted str_le (teams data) ∧
  NoDup (teams data) ∧
  ∀ t, t ∈ teams data ↔ ∃ r : Row, r ∈ data ∧ Batting_Team r = Some t.
Proof.
  split_and!.
  - apply Sorted_merge_sort. apply _.
  - unfold teams, sorted. rewrite merge_sort_Permutation. apply NoDup_unique.
  - intros t. apply (elem_of_options (fun r : Row => Batting_Team r)).
Qed.

Lemma options_nil (column : Row -> option string) (data : list Row) :
  sorted (unique (dropna (column <$> data))) = [] ↔
  ∀ r : Row, r ∈ data → column r = None.
Proof.
  split.
  - intros Hnil r Hr. destruct (column r) as [v|] eqn:Hv; [|done].
    assert (Hin : v ∈ sorted (unique (dropna (column <$> data)))).
    { apply elem_of_options. eauto. }
    rewrite Hnil in Hin. by apply elem_of_nil in Hin.
  - intros Hnone.
    destruct (sorted (unique (dropna (column <$> data)))) as [|v vs] eqn:Hs; [done|].
    assert (Hin : v ∈ sorted (unique (dropna (column <$> data)))).
    { rewrite Hs. by left. }
    apply elem_of_options in Hin as (r & Hr & Hv).
    rewrite (Hnone r Hr) in Hv. discriminate Hv.
Qed.

Lemma List_filter_ext_in {A} (f g : A -> bool) (l : list A) :
  (∀ a, a ∈ l → f a = g a) → List.filter f l = List.filter g l.
Proof.
  intros Hfg. apply filter_ext_in. intros a Ha. apply Hfg. by apply list_elem_of_In.
Qed.

(** X2.  With every team selected, as at start-up, the team filter drops
    exactly the rows without a team -- unless no row has a team at all:
    then the list of options is empty and the filter is off. *)
Theorem every_team_selected (data : list Row) :
  filter_teams (default_selection data) data =
    (if truthy (teams data)
     then List.filter (fun r : Row => notna (Batting_Team r)) data
     else data) ∧
  (teams data = [] ↔ ∀ r : Row, r ∈ data → Batting_Team r = None).
Proof.
  split; [|apply (options_nil (fun r : Row => Batting_Team r))].
  unfold filter_teams. simpl selected_teams.
  destruct (truthy (teams data)); [|done].
  apply List_filter_ext_in. intros r Hr.
  destruct (Batting_Team r) as [t|] eqn:Ht; simpl; [|done].
  apply bool_decide_eq_true.
  apply (elem_of_options (fun r : Row => Batting_Team r)). eauto.
Qed.

Lemma sorted_head_least (values : list string) (b : string) (rest : list string) :
  sorted values = b :: rest → ∀ v, v ∈ values → str_le b v.
Proof.
  intros Hs v Hv.
  assert (Hsorted : StronglySorted str_le (sorted values)).
  { apply StronglySorted_merge_sort; apply _. }
  apply elem_of_sorted in Hv. rewrite Hs in Hsorted, Hv.
  apply StronglySorted_inv in Hsorted as [_ Hall].
  apply elem_of_cons in Hv as [->|Hv]; [reflexivity|].
  rewrite Forall_forall in Hall. by apply Hall.
Qed.

(** X3.  When the table names a batter, the batter multiselect starts
    with the single batter that comes first in the order of [str]; that
    batter occurs in the table, no batter of the table comes before, and
    every row of the table filtered by the start-up selection is a row
    of that batter. *)
Theorem first_batter_selected (data : list Row) (b : string) :
  head (batters data) = Some b →
  selected_batters (default_selection data) = [b] ∧
  (∃ r : Row, r ∈ data ∧ Batter r = Some b) ∧
  (∀ (r : Row) (b' : string), r ∈ data → Batter r = Some b' → str_le b b') ∧
  (∀ r : Row, r ∈ filtered data (default_selection data) → Batter r = Some b).
Proof.
  intros Hhead.
  destruct (batters data) as [|b0 rest] eqn:Hb; [done|]. injection Hhead as ->.
  assert (Hsel : selected_batters (default_selection data) = [b]).
  { simpl. by rewrite Hb. }
  split_and!.
  - exact Hsel.
  - apply (elem_of_options (fun r : Row => Batter r)).
    fold (batters data). rewrite Hb. by left.
  - intros r b' Hr Hb'. eapply sorted_head_least; [exact Hb|].
    apply elem_of_unique, elem_of_dropna, list_elem_of_fmap. eauto.
  - intros r Hr. rewrite filtered_keep in Hr.
    apply elem_of_List_filter in Hr as [_ Hkeep].
    apply keep_passes in Hkeep as (_ & Hbat & _).
    rewrite Hsel in Hbat. destruct Hbat as (v & Hv & Hin); [done|].
    apply list_elem_of_singleton in Hin. by subst.
Qed.

Lemma first_batter_selected_witness :
  head (batters (load_data two_batters)) = Some "A Opener" ∧
  selected_batters (default_selection (load_data two_batters)) = ["A Opener"] ∧
  ∀ r : Row,
    r ∈ filtered (load_data two_batters) (default_selection (load_data two_batters)) →
    Batter r = Some "A Opener".
Proof.
  assert (Hhead : head (batters (load_data two_batters)) = Some "A Opener")
    by reflexivity.
  destruct (first_batter_selected (load_data two_batters) "A Opener" Hhead)
    as (Hsel & _ & _ & Hrows).
  split_and!; [exact Hhead | exact Hsel | exact Hrows].
Defined.

(** ** Filtering, row by row *)

Lemma List_filter_app {A} (f : A -> bool) (l1 l2 : list A) :
  List.filter f (l1 ++ l2)%list = (List.filter f l1 ++ List.filter f l2)%list.
Proof. apply List.filter_app. Qed.

Lemma List_filter_sublist_impl {A} (f g : A -> bool) (l : list A) :
  (∀ a, f a = true → g a = true) → List.filter f l `sublist_of` List.filter g l.
Proof.
  intros Hfg. induction l as [|a l IH]; simpl; [done|].
  destruct (f a) eqn:Hf.
  - rewrite (Hfg a Hf). by constructor.
  - destruct (g a); [by constructor | done].
Qed.

(** The facet filters in any order come to the one mask [keep]. *)
Ltac facet_order sel :=
  rewrite filtered_keep; unfold filter_teams, filter_batters, filter_bowling;
  rewrite ?(facet_step (selected_teams sel) (fun r : Row => Batting_Team r));
  rewrite ?(facet_step (selected_batters sel) (fun r : Row => Batter r));
  rewrite ?(facet_step (selected_bowling sel) Bowling_Type);
  rewrite !List_filter_twice; apply List_filter_ext_in; intros r _; unfold keep;
  destruct (facet_mask (selected_teams sel) (Batting_Team r)),
           (facet_mask (selected_batters sel) (Batter r)),
           (facet_mask (selected_bowling sel) (Bowling_Type r)); reflexivity.

(** X4.  Filtering decides row by row: it distributes over putting two
    tables one after the other, filtering twice by the same selection
    changes nothing more, and the three facet filters give the same
    table in each of their six orders. *)
Theorem filtering_is_row_wise (data more : list Row) (sel : Selection) :
  filtered (data ++ more)%list sel = (filtered data sel ++ filtered more sel)%list ∧
  filtered (filtered data sel) sel = filtered data sel ∧
  filter_bowling sel (filter_batters sel (filter_teams sel data)) = filtered data sel ∧
  filter_bowling sel (filter_teams sel (filter_batters sel data)) = filtered data sel ∧
  filter_batters sel (filter_bowling sel (filter_teams sel data)) = filtered data sel ∧
  filter_batters sel (filter_teams sel (filter_bowling sel data)) = filtered data sel ∧
  filter_teams sel (filter_bowling sel (filter_batters sel data)) = filtered data sel ∧
  filter_teams sel (filter_batters sel (filter_bowling sel data)) = filtered data sel.
Proof.
  split_and!.
  - rewrite !filtered_keep. apply List_filter_app.
  - rewrite !filtered_keep, List_filter_twice. apply List_filter_ext_in.
    intros r _. by destruct (keep sel r).
  - reflexivity.
  - facet_order sel.
  - facet_order sel.
  - facet_order sel.
  - facet_order sel.
  - facet_order sel.
Qed.

Lemma facet_mask_widens {A} `{EqDecision A} (narrow wide : list A) (value : option A) :
  widens narrow wide →
  facet_mask narrow value = true → facet_mask wide value = true.
Proof.
  rewrite !facet_mask_allows. unfold facet_allows.
  intros [->|[Hne Hsub]] Hnarrow Hwide; [done|].
  destruct (Hnarrow Hne) as (v & Hv & Hin). exists v. split; [done|]. by apply Hsub.
Qed.

(** X5.  If, facet by facet, a selection is widened -- cleared, or, when
    it was not empty, extended -- every row kept before is still kept,
    in the same order. *)
Theorem wider_selection_keeps_more (data : list Row) (sel sel' : Selection) :
  widens (selected_teams sel) (selected_teams sel') →
  widens (selected_batters sel) (selected_batters sel') →
  widens (selected_bowling sel) (selected_bowling sel') →
  filtered data sel `sublist_of` filtered data sel'.
Proof.
  intros Ht Hb Hw. rewrite !filtered_keep.
  apply List_filter_sublist_impl. intros r. unfold keep.
  rewrite !andb_true_iff. intros (H1 & H2 & H3).
  split_and!; eapply facet_mask_widens; eassumption.
Qed.

Lemma wider_selection_keeps_more_witness :
  widens (selected_bowling spin_only) (selected_bowling all_selected) ∧
  length (filtered (load_data two_batters) spin_only) = 1%nat ∧
  length (filtered (load_data two_batters) all_selected) = 2%nat ∧
  filtered (load_data two_batters) spin_only
    `sublist_of` filtered (load_data two_batters) all_selected.
Proof.
  assert (Hteams : widens (selected_teams spin_only) (selected_teams all_selected)).
  { right. split; [discriminate | intros x Hx; exact Hx]. }
  assert (Hbatters : widens (selected_batters spin_only) (selected_batters all_selected)).
  { right. split; [discriminate | intros x Hx; exact Hx]. }
  assert (Hbowling : widens (selected_bowling spin_only) (selected_bowling all_selected)).
  { right. split; [discriminate|]. intros x Hx.
    apply list_elem_of_singleton in Hx. rewrite Hx. apply list_elem_of_here. }
  split_and!; [exact Hbowling | reflexivity | reflexivity |].
  exact (wider_selection_keeps_more (load_data two_batters) spin_only all_selected
           Hteams Hbatters Hbowling).
Defined.

(** ** The derived column *)

Lemma lookup_style (code : string) (b : BowlingType) :
  bowling_type_mapping !! code = Some b ↔
  code ∈ match b with Spin => spin_codes | Pace => pace_codes end.
Proof.
  split.
  - intros Hb. apply elem_of_list_to_map_2 in Hb.
    rewrite !elem_of_cons, elem_of_nil in Hb.
    repeat (destruct Hb as [[= -> ->]|Hb]; [apply (bool_decide_unpack _); by vm_compute|]).
    done.
  - destruct b; unfold spin_codes, pace_codes; rewrite !elem_of_cons, elem_of_nil;
      intros H; repeat (destruct H as [->|H]; [reflexivity|]); done.
Qed.

Lemma load_data_row (csv : list CsvRow) (r : Row) :
  r ∈ load_data csv →
  Bowling_Type r = map_dict bowling_type_mapping (Bowler_Type r).
Proof.
  unfold load_data. rewrite list_elem_of_fmap. by intros (c & -> & _).
Qed.

(** X6.  Loading keeps the rows of the file as they are, in order, and
    gives a row the category Spin exactly for the styles LLB, LOB, RLB
    and ROB, and Pace exactly for LF, LFM, LM, RF, RFM and RM. *)
Theorem load_data_adds_category (csv : list CsvRow) :
  (fun r : Row => cells r) <$> load_data csv = csv ∧
  ∀ (r : Row) (b : BowlingType),
    r ∈ load_data csv →
    (Bowling_Type r = Some b ↔
     ∃ code, Bowler_Type r = Some code ∧
             code ∈ match b with Spin => spin_codes | Pace => pace_codes end).
Proof.
  split.
  - unfold load_data. rewrite <- list_fmap_compose.
    induction csv as [|c csv IH]; [done|]. rewrite fmap_cons. simpl. by rewrite IH.
  - intros r b Hr. rewrite (load_data_row csv r Hr).
    destruct (Bowler_Type r) as [code|]; simpl.
    + rewrite lookup_style. split; [eauto|]. by intros (c & [= <-] & Hc).
    + split; [done|]. by intros (c & [=] & _).
Qed.

(** X7.  With both bowling categories selected, as at start-up, the
    bowling filter keeps exactly the loaded rows whose bowler style is
    one of the ten listed codes. *)
Theorem both_categories_selected (csv : list CsvRow) (r : Row) :
  r ∈ filter_bowling (default_selection (load_data csv)) (load_data csv) ↔
  r ∈ load_data csv ∧ ∃ code, Bowler_Type r = Some code ∧ code ∈ style_codes.
Proof.
  unfold filter_bowling. simpl selected_bowling. cbn [truthy].
  rewrite elem_of_List_filter, isin_true.
  split.
  - intros (Hr & b & Hb & _). split; [done|].
    rewrite (load_data_row csv r Hr) in Hb.
    destruct (Bowler_Type r) as [code|]; [|done]. simpl in Hb.
    exists code. split; [done|].
    apply lookup_style in Hb. destruct b;
      unfold spin_codes, pace_codes, style_codes in *;
      rewrite !elem_of_cons in *; tauto.
  - intros (Hr & code & Hcode & Hin). split; [done|].
    destruct (mapped_code code Hin) as [b Hb]. exists b.
    rewrite (load_data_row csv r Hr), Hcode. split; [done|].
    destruct b; [left | right; left].
Qed.

(** ** Dismissal pie *)

Lemma occurrences_cons (v x : string) (s : list string) :
  occurrences v (x :: s) = ((if bool_decide (x = v) then 1 else 0) + occurrences v s)%nat.
Proof. unfold occurrences. simpl. by destruct (bool_decide (x = v)). Qed.

Lemma occurrences_pos (v : string) (s : list string) :
  (0 < occurrences v s)%nat ↔ v ∈ s.
Proof.
  induction s as [|x s IH]; [unfold occurrences; simpl; split; [lia | by intros ?%elem_of_nil]|].
  rewrite occurrences_cons, elem_of_cons. case_bool_decide; subst.
  - split; [by left | lia].
  - rewrite <- IH. split; [intros; right; lia | intros [?|?]; [congruence | lia]].
Qed.

Lemma sum_indicator (x : string) (l : list string) :
  NoDup l → x ∈ l →
  sum_list_with (fun v => if bool_decide (x = v) then 1 else 0)%nat l = 1%nat.
Proof.
  induction 1 as [|v l Hv Hl IH]; [by intros ?%elem_of_nil|].
  rewrite elem_of_cons. simpl. intros Hx. case_bool_decide; subst.
  - assert (sum_list_with (fun v0 => if bool_decide (v = v0) then 1 else 0)%nat l = 0%nat) as ->; [|done].
    clear IH Hx Hl. induction l as [|y l IH]; [done|]. simpl.
    apply not_elem_of_cons in Hv as [Hne Hv]. rewrite bool_decide_eq_false_2 by done.
    by rewrite IH.
  - destruct Hx as [?|Hx]; [done|]. by rewrite IH.
Qed.

Lemma sum_occurrences (l s : list string) :
  NoDup l → (∀ x, x ∈ s → x ∈ l) →
  sum_list_with (fun v => occurrences v s) l = length s.
Proof.
  intros Hl. induction s as [|x s IH]; intros Hs.
  - clear Hl Hs. induction l as [|v l IHl]; [done|]. simpl in *. exact IHl.
  - assert (Hsplit : ∀ k : list string,
              sum_list_with (fun v => occurrences v (x :: s)) k
              = (sum_list_with (fun v => if bool_decide (x = v) then 1 else 0) k
                 + sum_list_with (fun v => occurrences v s) k)%nat).
    { induction k as [|v k IHk]; [done|]. simpl. rewrite IHk, occurrences_cons. lia. }
    rewrite Hsplit, sum_indicator, IH; [done | | done |].
    + intros y Hy. apply Hs. by right.
    + apply Hs. by left.
Qed.

Lemma dropna_cons {A} (v : option A) (s : list (option A)) :
  dropna (v :: s) = match v with Some a => a :: dropna s | None => dropna s end.
Proof. by destruct v. Qed.

Lemma dropna_dismissals (rows : list Row) :
  dropna ((fun r : Row => Wicket r) <$> dismissals rows)
  = dropna ((fun r : Row => Wicket r) <$> rows).
Proof.
  unfold dismissals. induction rows as [|r rows IH]; [done|].
  cbn [List.filter]. destruct (Wicket r) as [x|] eqn:Hx; cbn [notna].
  - by rewrite !fmap_cons, !dropna_cons, Hx, IH.
  - by rewrite fmap_cons, dropna_cons, Hx.
Qed.

Lemma wickets_of_dismissals (rows : list Row) (w : string) :
  occurrences w (dropna ((fun r : Row => Wicket r) <$> dismissals rows))
  = length (List.filter (fun r : Row => eq_cell (Wicket r) w) rows).
Proof.
  rewrite dropna_dismissals.
  induction rows as [|r rows IH]; [done|].
  rewrite fmap_cons, dropna_cons. cbn [List.filter].
  destruct (Wicket r) as [x|]; [|exact IH].
  rewrite occurrences_cons. unfold eq_cell.
  case_bool_decide; simpl; by rewrite IH.
Qed.

Lemma length_wickets_of_dismissals (rows : list Row) :
  length (dropna ((fun r : Row => Wicket r) <$> dismissals rows)) = length (dismissals rows).
Proof.
  rewrite dropna_dismissals. unfold dismissals.
  induction rows as [|r rows IH]; [done|].
  rewrite fmap_cons, dropna_cons. cbn [List.filter].
  destruct (Wicket r) as [x|]; cbn [notna]; [|exact IH].
  simpl. by rewrite IH.
Qed.

Lemma sum_list_column {A} (f : A -> nat) (l : list A) :
  sum_list (f <$> l) = sum_list_with f l.
Proof.
  induction l as [|a l IH]; [done|].
  change (f a + sum_list (f <$> l) = f a + sum_list_with f l)%nat. by rewrite IH.
Qed.

Lemma insert_by_count_Permutation (x : string * nat) (l : list (string * nat)) :
  insert_by_count x l ≡ₚ x :: l.
Proof.
  induction l as [|y l IH]; [done|]. simpl. case_decide; [|done].
  rewrite IH. apply Permutation_swap.
Qed.

Lemma sort_by_count_Permutation (l : list (string * nat)) : sort_by_count l ≡ₚ l.
Proof.
  induction l as [|x l IH]; [done|]. simpl.
  by rewrite insert_by_count_Permutation, IH.
Qed.

Lemma insert_by_count_Sorted (x : string * nat) (l : list (string * nat)) :
  Sorted at_least_as_frequent l → Sorted at_least_as_frequent (insert_by_count x l).
Proof.
  induction l as [|y l IH]; intros Hl; simpl.
  - by repeat constructor.
  - apply Sorted_inv in Hl as [Hl Hy]. case_decide.
    + constructor; [by apply IH|].
      destruct l as [|z l]; simpl.
      * constructor. unfold at_least_as_frequent. lia.
      * apply HdRel_inv in Hy. case_decide; constructor; [done|].
        unfold at_least_as_frequent. lia.
    + constructor; [by constructor|]. constructor.
      unfold at_least_as_frequent. lia.
Qed.

Lemma sort_by_count_Sorted (l : list (string * nat)) :
  Sorted at_least_as_frequent (sort_by_count l).
Proof.
  induction l as [|x l IH]; [constructor|]. simpl. by apply insert_by_count_Sorted.
Qed.

(** X8.  The pie has one slice per distinct wicket kind of the table,
    each valued with the number of rows of that kind (at least one), in
    falling order of value, and the values add up to the number of rows
    with a wicket. *)
Theorem pie_counts_the_wickets (rows : list Row) :
  let counts := value_counts ((fun r : Row => Wicket r) <$> dismissals rows) in
  NoDup counts.*1 ∧
  Sorted at_least_as_frequent counts ∧
  (∀ (w : string) (n : nat),
      (w, n) ∈ counts ↔
      (0 < n)%nat ∧
      n = length (List.filter (fun r : Row => eq_cell (Wicket r) w) rows)) ∧
  sum_list counts.*2 = length (dismissals rows).
Proof.
  intros counts. unfold value_counts in counts.
  set (values := dropna ((fun r : Row => Wicket r) <$> dismissals rows)) in *.
  set (pairs := (fun v => (v, occurrences v values)) <$> unique values) in *.
  assert (Hperm : counts ≡ₚ pairs) by apply sort_by_count_Permutation.
  assert (Hfst : pairs.*1 = unique values).
  { unfold pairs. rewrite <- list_fmap_compose. apply list_fmap_id. }
  split_and!.
  - rewrite Hperm, Hfst. apply NoDup_unique.
  - apply sort_by_count_Sorted.
  - intros w n. rewrite Hperm. unfold pairs. rewrite list_elem_of_fmap.
    rewrite <- (wickets_of_dismissals rows w). fold values. split.
    + intros (v & [= -> ->] & Hv). split; [|done].
      apply occurrences_pos. by rewrite elem_of_unique in Hv.
    + intros [Hpos ->]. exists w. split; [done|].
      rewrite elem_of_unique. by apply occurrences_pos.
  - rewrite Hperm. unfold pairs. rewrite <- list_fmap_compose.
    rewrite <- (length_wickets_of_dismissals rows). fold values.
    rewrite <- (sum_occurrences (unique values) values).
    + apply sum_list_column.
    + apply NoDup_unique.
    + intros x Hx. by rewrite elem_of_unique.
Qed.

(** X9.  The pie counts every row with a wicket, the Dismissals tile only
    those that are no pseudo-dismissal: the pie's row count is the
    tile's count plus the rows retired or absent, so never less. *)
Theorem pie_counts_more_than_the_kpi (rows : list Row) :
  length (dismissals rows)
  = (dismissals_count rows + length (List.filter is_pseudo_dismissal rows))%nat ∧
  (dismissals_count rows <= length (dismissals rows))%nat.
Proof.
  assert (Heq : length (dismissals rows)
    = (dismissals_count rows + length (List.filter is_pseudo_dismissal rows))%nat).
  { unfold dismissals, dismissals_count, is_dismissal, is_pseudo_dismissal.
    induction rows as [|r rows IH]; [done|]. cbn [List.filter].
    destruct (Wicket r) as [w|]; simpl notna; [|simpl; exact IH].
    destruct (isin (Some w) _); simpl; lia. }
  split; [exact Heq | lia].
Qed.

(** ** Catch map and wagon wheel *)

(** X10.  Every row of the catch map is a dismissal of the Dismissals
    tile, in the same order, so the map never has more markers than the
    tile counts; it has one marker per caught row. *)
Theorem catch_map_within_dismissals (rows : list Row) :
  caught rows `sublist_of` List.filter is_dismissal rows ∧
  (length (caught rows) <= dismissals_count rows)%nat ∧
  length (markers (catch_trace (caught rows))) = length (caught rows).
Proof.
  assert (Hsub : caught rows `sublist_of` List.filter is_dismissal rows).
  { unfold caught. apply List_filter_sublist_impl. intros r.
    rewrite !andb_true_iff, eq_cell_true. intros [[Hw _] _].
    unfold is_dismissal. by rewrite Hw. }
  split_and!.
  - exact Hsub.
  - unfold dismissals_count. by apply sublist_length.
  - unfold markers, catch_trace, x_vals, y_vals. simpl.
    by rewrite zip_columns, length_fmap.
Qed.

Lemma get_run_color (n : Z) :
  n ∈ run_options →
  ∃ c, (n, c) ∈ run_colors ∧ get run_colors (Some n) "grey" = c ∧ c ≠ "grey".
Proof.
  unfold run_options. rewrite !elem_of_cons, elem_of_nil.
  intros H; repeat (destruct H as [->|H];
    [eexists; split_and!; [|reflexivity|discriminate];
     apply (bool_decide_unpack _); by vm_compute|]); done.
Qed.

Lemma get_fallback (v : option Z) :
  (∀ n, v = Some n → n ∉ run_options) → get run_colors v "grey" = "grey".
Proof.
  intros Hout. destruct v as [n|]; [|reflexivity].
  specialize (Hout n eq_refl). unfold run_options in Hout.
  rewrite !not_elem_of_cons in Hout. destruct Hout as (?&?&?&?&?&?&_).
  simpl. unfold eq_cell. by rewrite !bool_decide_eq_false_2 by done.
Qed.

Lemma wagon_section_chart (files : gmap string Image) (rows : list Row) (sel : Selection) :
  wagon rows sel ≠ [] →
  wagon_section files rows sel =
    plotly_chart
      {| layout_image := optional_background files "wagon_background.png";
         data := (wagon_lines (wagon rows sel) ++ (legend_entry <$> run_colors))%list |}.
Proof.
  intros Hne. unfold wagon_section. by destruct (wagon rows sel).
Qed.

(** X11.  When the runs selection is made of values the multiselect
    offers, each row of the wagon wheel scores 1 to 6, the chart is
    shown and holds the row's line, and the line has the colour of the
    legend entry named after its runs, never the fallback grey. *)
Theorem wagon_lines_match_the_legend (files : gmap string Image)
    (rows : list Row) (sel : Selection) (r : Row) :
  selected_runs sel ⊆ run_options →
  r ∈ wagon rows sel →
  ∃ (n : Z) (c : string) (fig : Figure),
    Runs r = Some n ∧ n ∈ run_options ∧
    trace_color (wagon_line r) = c ∧ c ≠ "grey" ∧
    wagon_section files rows sel = plotly_chart fig ∧
    wagon_line r ∈ data fig ∧
    legend_entry (n, c) ∈ data fig ∧
    trace_name (legend_entry (n, c)) = Some (pretty n +:+ " Run").
Proof.
  intros Hoptions Hr.
  destruct (wagon_has_coordinates _ _ _ Hr) as (_ & (n & Hn & Hsel & _) & _).
  destruct (get_run_color n (Hoptions n Hsel)) as (c & Hc & Hget & Hgrey).
  exists n, c. eexists. split_and!.
  - exact Hn.
  - by apply Hoptions.
  - unfold wagon_line. simpl. by rewrite Hn.
  - exact Hgrey.
  - apply wagon_section_chart. intros Hnil. rewrite Hnil in Hr. by apply elem_of_nil in Hr.
  - cbn [data]. apply elem_of_app. left. by apply list_elem_of_fmap_2.
  - cbn [data]. apply elem_of_app. right.
    by apply (list_elem_of_fmap_2 legend_entry).
  - reflexivity.
Qed.

Lemma wagon_lines_match_the_legend_witness :
  selected_runs all_selected ⊆ run_options ∧
  ∃ (n : Z) (c : string) (fig : Figure),
    Runs (add_bowling_type (delivery 4 None (Some 200%Q, Some 150%Q) (None, None)))
      = Some n ∧
    n ∈ run_options ∧
    trace_color
      (wagon_line
         (add_bowling_type (delivery 4 None (Some 200%Q, Some 150%Q) (None, None))))
      = c ∧
    c ≠ "grey" ∧
    wagon_section ∅ (load_data scenario) all_selected = plotly_chart fig ∧
    wagon_line (add_bowling_type (delivery 4 None (Some 200%Q, Some 150%Q) (None, None)))
      ∈ data fig ∧
    legend_entry (n, c) ∈ data fig ∧
    trace_name (legend_entry (n, c)) = Some (pretty n +:+ " Run").
Proof.
  assert (Hoptions : selected_runs all_selected ⊆ run_options)
    by (intros x Hx; exact Hx).
  split; [exact Hoptions|].
  apply (wagon_lines_match_the_legend ∅ (load_data scenario) all_selected _ Hoptions).
  change (wagon (load_data scenario) all_selected)
    with [add_bowling_type (delivery 4 None (Some 200%Q, Some 150%Q) (None, None))].
  apply list_elem_of_here.
Defined.

(** X12.  A wagon-wheel line is grey exactly when the runs of its row are
    missing or outside 1 to 6. *)
Theorem grey_only_for_unlisted_runs (row : Row) :
  trace_color (wagon_line row) = "grey" ↔
  ∀ n, Runs row = Some n → n ∉ run_options.
Proof.
  unfold wagon_line. cbn [trace_color]. split.
  - intros Hgrey n Hn Hin. rewrite Hn in Hgrey.
    destruct (get_run_color n Hin) as (c & _ & Hc & Hne). congruence.
  - apply get_fallback.
Qed.

(** ** The whole page *)

Lemma kpi_section_Ok (rows : list Row) : ∃ m, kpi_section rows = Ok m.
Proof.
  unfold kpi_section, batting_average, strike_rate, boundary_percentage.
  destruct (0 <? dismissals_count rows)%nat eqn:Hd;
    [apply Nat.ltb_lt in Hd; rewrite truediv_inject_Z by lia|];
  (destruct (0 <? balls_faced rows)%nat eqn:Hb;
    [apply Nat.ltb_lt in Hb; rewrite truediv_inject_Z by lia|]);
  (destruct (0 <? total_runs rows) eqn:Ht;
    [apply Z.ltb_lt in Ht; rewrite truediv_inject_Z by lia|]);
  simpl; eauto.
Qed.

Lemma pictures_lookup (disk : gmap string (result Image)) (path : string) :
  pictures disk !! path =
    match Image_open_at disk path with Ok img => Some img | Raise _ => None end.
Proof.
  unfold pictures, Image_open_at. rewrite lookup_omap.
  by destruct (disk !! path) as [[img|e]|].
Qed.

(** X13.  Whatever the table, the selection and the files on disk, the
    KPI row, the wagon wheel, the pie and the catch map are shown, in
    this order, the two field charts with their background when it opens
    and without it otherwise.  Without a row for the beehive the run
    ends with the beehive's placeholder text.  With such rows it ends
    with the beehive chart over its picture when the picture opens, and
    stops after the catch map, with the very exception [Image.open]
    raised, when it does not. *)
Theorem page_stops_only_at_the_beehive
    (disk : gmap string (result Image)) (csv : list CsvRow) (sel : Selection) :
  let rows := filtered (load_data csv) sel in
  let bd := beehive_data rows in
  ∃ m, kpi_section rows = Ok m ∧
    let shown :=
      [ metric_row m;
        chart_or_text (wagon_section (pictures disk) rows sel);
        pie_or_text (pie_section rows);
        chart_or_text (catch_section (pictures disk) rows) ] in
    (∀ path,
       optional_background (pictures disk) path =
         match Image_open_at disk path with
         | Ok img => Some img
         | Raise _ => None
         end) ∧
    (bd = [] →
     page disk csv sel
     = ((shown ++ [chart_or_text (write "No delivery data available.")])%list,
        None)) ∧
    (bd ≠ [] → ∀ img,
     Image_open_at disk "beehive_background.jpg" = Ok img →
     page disk csv sel
     = ((shown ++
         [chart_or_text
            (plotly_chart
               {| layout_image := Some img;
                  data := [fours bd; sixes bd; wickets bd] |})])%list,
        None)) ∧
    (bd ≠ [] → ∀ e,
     Image_open_at disk "beehive_background.jpg" = Raise e →
     page disk csv sel = (shown, Some e)).
Proof.
  intros rows bd. destruct (kpi_section_Ok rows) as [m Hm]. exists m.
  split; [exact Hm|]. unfold page, beehive_section_at. fold rows. fold bd. rewrite Hm.
  split_and!.
  - intros path. unfold optional_background, Image_open.
    rewrite pictures_lookup. by destruct (Image_open_at disk path).
  - intros ->. reflexivity.
  - intros Hbd img ->. by destruct bd.
  - intros Hbd e ->. by destruct bd.
Qed.

Lemma page_stops_only_at_the_beehive_example :
  (page ∅ recorded_single all_selected).2 = Some FileNotFoundError ∧
  (page {[ "beehive_background.jpg" := Raise (OtherError "UnidentifiedImageError") ]}
        recorded_single all_selected).2
    = Some (OtherError "UnidentifiedImageError") ∧
  (page {[ "beehive_background.jpg" := Ok {| img_width := 4; img_height := 3 |} ]}
        recorded_single all_selected).2 = None.
Proof. split_and!; reflexivity. Qed.

(** ** Beehive *)

Lemma beehive_trace_marker_inv (rows : list Row) (mask : Row -> bool)
    (color name : string) (p : option Q * option Q) :
  p ∈ markers (beehive_trace (beehive_data rows) mask color name) →
  ∃ (r : Row) (line height : Q),
    r ∈ rows ∧ mask r = true ∧
    Analyst_Arrival_Line r = Some line ∧ Analyst_Arrival_Height r = Some height ∧
    p = (Some line, Some height).
Proof.
  unfold markers, beehive_trace. cbn [trace_x trace_y].
  rewrite zip_columns, list_elem_of_fmap.
  intros (r & -> & Hr). apply elem_of_List_filter in Hr as [Hr Hmask].
  unfold beehive_data in Hr. apply elem_of_List_filter in Hr as [Hr Hboth].
  apply andb_true_iff in Hboth as [Hl Hh].
  apply notna_true in Hl as [l Hl]. apply notna_true in Hh as [h Hh].
  exists r, l, h. by rewrite Hl, Hh.
Qed.

Lemma beehive_trace_blank (bd : list Row) (mask : Row -> bool) (color name : string) :
  (∀ r, r ∈ bd → mask r = false) →
  markers (beehive_trace bd mask color name) = [].
Proof.
  intros Hnone. unfold markers, beehive_trace. cbn [trace_x trace_y].
  rewrite zip_columns.
  assert (List.filter mask bd = []) as ->; [|done].
  induction bd as [|r bd IH]; [done|]. simpl.
  rewrite (Hnone r) by by left. apply IH. intros r' Hr'. apply Hnone. by right.
Qed.

(** X14.  Every marker of the beehive comes from a row with both arrival
    coordinates that is a four, a six or a wicket.  When the picture
    opens and the rows with arrival coordinates are all of another kind,
    the chart is shown with no marker at all, not the placeholder text. *)
Theorem beehive_shows_only_boundaries_and_wickets
    (files : gmap string Image) (img : Image) (rows : list Row) :
  let bd := beehive_data rows in
  (∀ p, p ∈ markers (fours bd) ∨ p ∈ markers (sixes bd) ∨ p ∈ markers (wickets bd) →
     ∃ (r : Row) (line height : Q),
       r ∈ rows ∧ (Runs r = Some 4 ∨ Runs r = Some 6 ∨ Wicket r ≠ None) ∧
       Analyst_Arrival_Line r = Some line ∧ Analyst_Arrival_Height r = Some height ∧
       p = (Some line, Some height)) ∧
  (files !! "beehive_background.jpg" = Some img →
   bd ≠ [] →
   (∀ r : Row, r ∈ bd → Runs r ≠ Some 4 ∧ Runs r ≠ Some 6 ∧ Wicket r = None) →
   ∃ fig, beehive_section files rows = Ok (plotly_chart fig) ∧
          ∀ t, t ∈ data fig → markers t = []).
Proof.
  intros bd. split.
  - intros p [Hp|[Hp|Hp]];
      apply beehive_trace_marker_inv in Hp as (r & l & h & Hr & Hm & Hl & Hh & ->);
      exists r, l, h; split_and!; try done.
    + left. by apply eq_cell_true.
    + right; left. by apply eq_cell_true.
    + right; right. by destruct (Wicket r).
  - intros Himg Hne Hdots.
    exists {| layout_image := Some img; data := [fours bd; sixes bd; wickets bd] |}.
    split.
    + unfold beehive_section, Image_open. rewrite Himg. fold bd.
      by destruct bd.
    + intros t. cbn [data]. rewrite !elem_of_cons, elem_of_nil.
      intros [->|[->|[->|[]]]]; apply beehive_trace_blank; intros r Hr;
        destruct (Hdots r Hr) as (H4 & H6 & Hw).
      * destruct (eq_cell (Runs r) 4) eqn:He; [|done]. by apply eq_cell_true in He.
      * destruct (eq_cell (Runs r) 6) eqn:He; [|done]. by apply eq_cell_true in He.
      * by rewrite Hw.
Qed.

(** ** Metrics of two tables put together *)

Lemma sum_app (s t : list (option Z)) : sum (s ++ t)%list = sum s + sum t.
Proof.
  induction s as [|v s IH]; [done|].
  change ((v :: s) ++ t)%list with (v :: (s ++ t))%list.
  rewrite !sum_cons, IH. lia.
Qed.

(** X16.  Balls faced and dismissals of two tables put together are the
    sums of those of each, and never exceed the number of rows.  On a
    table whose runs are all 64-bit integers, total runs and boundary
    runs of the two together are the sums of those of each, wrapped
    around at 64 bits. *)
Theorem metrics_add_up (rows more : list Row) :
  balls_faced (rows ++ more)%list = (balls_faced rows + balls_faced more)%nat ∧
  dismissals_count (rows ++ more)%list
    = (dismissals_count rows + dismissals_count more)%nat ∧
  (balls_faced rows <= length rows)%nat ∧
  (dismissals_count rows <= length rows)%nat ∧
  (Forall int64_runs (rows ++ more)%list →
   total_runs_int64 (rows ++ more)%list
     = wrap_int64 (total_runs_int64 rows + total_runs_int64 more) ∧
   boundary_runs_int64 (rows ++ more)%list
     = wrap_int64 (boundary_runs_int64 rows + boundary_runs_int64 more)).
Proof.
  unfold balls_faced, dismissals_count.
  rewrite !List_filter_app, !length_app.
  split_and!; try done; try apply sublist_length, List_filter_sublist.
  intros _. unfold total_runs_int64, boundary_runs_int64, sum_int64.
  by rewrite !List_filter_app, !fmap_app, !sum_app, !wrap_int64_add.
Qed.

